(** * Workflow orchestration core of idwo-mcp-agent

    A shallow embedding of [src/workflows/orchestrator.ts] (class
    [WorkflowOrchestrator]) and of the parts of [src/agents/openai.ts]
    that decide the numeric fields, with some of its keyword extractors,
    followed by the properties of the specification that are stated about
    them and by further properties that the code has.

    Conventions of the embedding.

    - The orchestrator is asynchronous but single-threaded; one operation is
      modelled as a run of a state-and-exception monad [M].  The state holds
      the [workflowState] map, the chronological trace of observable actions
      (adapter calls, writes to the map, dispatches of the sync loop) and the
      number of [new Date()] evaluations.
    - The four collaborators (GitHub, Jira, Slack, the LLM agent) are mocked
      in the test-suite and are external here as well: a [World] gives, for
      every adapter method, the outcome of a call as a function of the trace
      so far and of the arguments.  A call either resolves with a value or
      rejects with a thrown error.
    - JavaScript strings are [string] (bytes); case mapping and white space
      are the ASCII ones.  JavaScript objects used as maps are [gmap]s with
      string keys; object spread is map union.
    - Integral JavaScript numbers are [Z]; [NaN] results of [parseInt] and of
      [0/0] are [None]; the fractional numbers ([confidence], velocity
      samples) are rationals [Q].  Comparisons, [Math.min] and [Math.max]
      are exact on doubles; the averages and the factors [1.1] and [0.9] of
      the velocity trend are computed exactly here, which agrees with the
      doubles away from the rounding error of the thresholds.
    - [getTeamInsights] reads no workflow state and no property below is
      about it; it is not embedded.  Logging is not embedded either. *)

From Stdlib Require Import ZArith QArith Qminmax String Ascii List Lia.
From stdpp Require Import gmap strings list fin_maps pretty.

Local Open Scope Z_scope.

(** ** JavaScript string and array primitives *)

Module Js.

Definition is_upper (c : ascii) : bool :=
  let n := nat_of_ascii c in (65 <=? n)%nat && (n <=? 90)%nat.

Definition is_lower (c : ascii) : bool :=
  let n := nat_of_ascii c in (97 <=? n)%nat && (n <=? 122)%nat.

Definition is_digit (c : ascii) : bool :=
  let n := nat_of_ascii c in (48 <=? n)%nat && (n <=? 57)%nat.

(** [\s] restricted to ASCII: space, TAB, LF, VT, FF, CR. *)
Definition is_space (c : ascii) : bool :=
  let n := nat_of_ascii c in (n =? 32)%nat || ((9 <=? n)%nat && (n <=? 13)%nat).

Definition lower_char (c : ascii) : ascii :=
  if is_upper c then ascii_of_nat (nat_of_ascii c + 32) else c.

Definition upper_char (c : ascii) : ascii :=
  if is_lower c then ascii_of_nat (nat_of_ascii c - 32) else c.

Fixpoint map_chars (f : ascii -> ascii) (s : string) : string :=
  match s with
  | EmptyString => EmptyString
  | String c r => String (f c) (map_chars f r)
  end.

(** [s.toLowerCase()] and [s.toUpperCase()]. *)
Definition toLowerCase : string -> string := map_chars lower_char.
Definition toUpperCase : string -> string := map_chars upper_char.

(** Truthiness of a string ([''] is falsy) and of a possibly undefined
    string. *)
Definition truthy (s : string) : bool := negb (String.eqb s "").

Definition truthy_opt (o : option string) : bool :=
  match o with Some s => truthy s | None => false end.

(** [a || d] on possibly undefined strings, integers and arrays: the
    default is taken for [undefined], [''] and [0]; an array, even empty,
    is truthy. *)
Definition or_string (o : option string) (d : string) : string :=
  match o with Some s => if truthy s then s else d | None => d end.

Definition or_int (o : option Z) (d : Z) : Z :=
  match o with Some n => if n =? 0 then d else n | None => d end.

Definition or_list {A} (o : option (list A)) (d : list A) : list A :=
  match o with Some l => l | None => d end.

(** [s.split(sep)] for a one-character separator. *)
Fixpoint split (sep : ascii) (s : string) : list string :=
  match s with
  | EmptyString => [EmptyString]
  | String c r =>
      if Ascii.eqb c sep then EmptyString :: split sep r
      else match split sep r with
           | w :: ws => String c w :: ws
           | [] => [String c EmptyString]
           end
  end.

(** [s.split(/\s+/)]: a run of white space is one separator. *)
Fixpoint split_ws (s : string) (in_run : bool) : list string :=
  match s with
  | EmptyString => [EmptyString]
  | String c r =>
      if is_space c then
        if in_run then split_ws r true else EmptyString :: split_ws r true
      else match split_ws r false with
           | w :: ws => String c w :: ws
           | [] => [String c EmptyString]
           end
  end.

(** [l.join(sep)]. *)
Fixpoint join (sep : string) (l : list string) : string :=
  match l with
  | [] => ""
  | [x] => x
  | x :: r => x +:+ sep +:+ join sep r
  end.

(** [a[a.length - k]], [undefined] when the index is negative. *)
Definition from_end (l : list string) (k : nat) : option string :=
  if (length l <? k)%nat then None else l !! (length l - k)%nat.

(** [a.includes(x)] on an array of strings. *)
Definition array_includes (l : list string) (x : string) : bool :=
  existsb (String.eqb x) l.

(** [hay.includes(needle)]. *)
Fixpoint includes (hay needle : string) : bool :=
  String.prefix needle hay
  || match hay with
     | EmptyString => false
     | String _ r => includes r needle
     end.

(** [[...new Set(l)]]: first occurrences, in order. *)
Fixpoint uniq_from (seen l : list string) : list string :=
  match l with
  | [] => []
  | x :: r =>
      if array_includes seen x then uniq_from seen r
      else x :: uniq_from (x :: seen) r
  end.

Definition uniq : list string -> list string := uniq_from [].

(** [l.slice(0, n)]. *)
Definition slice0 {A} (n : nat) (l : list A) : list A := take n l.

(** [String(n)] for an integral number. *)
Definition of_int (n : Z) : string := pretty n.

Fixpoint drop_space (s : string) : string :=
  match s with
  | String c r => if is_space c then drop_space r else s
  | EmptyString => EmptyString
  end.

Definition dec_digit (c : ascii) : option Z :=
  if is_digit c then Some (Z.of_nat (nat_of_ascii c) - 48) else None.

Definition hex_digit (c : ascii) : option Z :=
  let n := Z.of_nat (nat_of_ascii c) in
  if is_digit c then Some (n - 48)
  else if (97 <=? n) && (n <=? 102) then Some (n - 87)
  else if (65 <=? n) && (n <=? 70) then Some (n - 55)
  else None.

Fixpoint digits (radix : Z) (val : ascii -> option Z) (s : string)
    (acc : option Z) : option Z :=
  match s with
  | EmptyString => acc
  | String c r =>
      match val c with
      | Some d => digits radix val r (Some (default 0 acc * radix + d))
      | None => acc
      end
  end.

Definition unsigned_int (s : string) : option Z :=
  match s with
  | String "0" (String "x" r) | String "0" (String "X" r) =>
      digits 16 hex_digit r None
  | _ => digits 10 dec_digit s None
  end.

(** [parseInt(s)] without a radix: leading white space, a sign, an
    optional [0x] prefix, then the longest run of digits; [None] is
    [NaN]. *)
Definition parseInt (s : string) : option Z :=
  match drop_space s with
  | String "-" r => Z.opp <$> unsigned_int r
  | String "+" r => unsigned_int r
  | r => unsigned_int r
  end.

End Js.

(** The characters that a string literal cannot hold directly. *)
Definition nl : string := String (ascii_of_nat 10) EmptyString.
Definition dq : string := String (ascii_of_nat 34) EmptyString.

(** ** Data model ([src/types/index.ts] and the adapters' records) *)

(** [ServiceError.service]. *)
Inductive Service := SvcGithub | SvcJira | SvcSlack | SvcOpenai.

(** What a rejected promise carries: a plain [Error] or the adapters'
    [ServiceError]. *)
Inductive Thrown :=
| Error (message : string)
| ServiceError (message : string) (service : Service)
    (statusCode : option Z) (retryable : bool).

Definition message_of (e : Thrown) : string :=
  match e with
  | Error m => m
  | ServiceError m _ _ _ => m
  end.

(** A settled promise. *)
Inductive Outcome (A : Type) :=
| Resolved (a : A)
| Rejected (e : Thrown).
Arguments Resolved {A} a.
Arguments Rejected {A} e.

(** [WorkflowStatus.type]. *)
Inductive WorkflowType := pr | issue | release.

Definition type_name (t : WorkflowType) : string :=
  match t with pr => "pr" | issue => "issue" | release => "release" end.

(** The platforms of [WorkflowStatusParams.platforms]. *)
Inductive Platform := github | jira | slack.

Definition platform_name (p : Platform) : string :=
  match p with github => "github" | jira => "jira" | slack => "slack" end.

(** [WorkflowStatus].  [services] is the sparse object of per-platform
    pointer objects; every pointer field ([status], [url], [key],
    [channel], [messageId]) is a string, so a pointer is a map from field
    name to string. *)
Record WorkflowStatus := {
  id : string;
  type : WorkflowType;
  status : string;
  lastUpdated : Z;
  services : gmap string (gmap string string);
}.

Definition with_services (s : WorkflowStatus)
    (sv : gmap string (gmap string string)) : WorkflowStatus :=
  {| id := id s; type := type s; status := status s;
     lastUpdated := lastUpdated s; services := sv |}.

(** [status.services.<platform>?.<field>]. *)
Definition pointer_field (s : WorkflowStatus) (platform field : string)
    : option string :=
  services s !! platform ≫= (.!! field).

(** *** Parameters of the operations *)

Record PRAnalysisParams := {
  owner : string;
  repo : string;
  pull_number : Z;
  include_jira_context : option bool;
}.

Record SmartTriageParams := {
  issue_key : string;
  github_issue_url : option string;
  team_context : option string;
}.

Record ReleaseOrchestrationParams := {
  release_version : string;
  repository : string;
  jira_project : string;
  slack_channel : string;
  dry_run : option bool;
}.

Record WorkflowStatusParams := {
  workflow_id : string;
  status_update : string;
  platforms : option (list Platform);
}.

(** *** Records of the adapters (the fields the orchestrator reads) *)

Record PRFile := {
  filename : string; file_status : string;
  additions : Z; deletions : Z; changes : Z; patch : option string;
}.

Record PRCommit := { sha : string; commit_message : string; commit_author : string }.

Record PRReview := { review_user : string; review_state : string; submittedAt : string }.

Record PRDetails := {
  pr_title : string;
  pr_body : string;
  pr_files : list PRFile;
  pr_commits : list PRCommit;
  pr_reviews : list PRReview;
}.

Record IssueDetails := {
  gh_number : Z; gh_title : string; gh_body : string; gh_state : string;
}.

Record RepositoryStats := { contributors : list string }.

Record JiraComment := { jc_author : string; jc_body : string; jc_created : string }.

Record JiraIssue := {
  key : string;
  summary : string;
  description : string;
  priority : string;
  reporter : string;
  labels : list string;
  components : list string;
  sprint : option string;
  comments : list JiraComment;
}.

Record ProjectIssueStats := { totalIssues : Z }.

Record SlackChannel := { channel_id : string; channel_name : string }.

Record Blocker := { b_type : string; b_description : string; b_severity : string }.

(** [AnalysisResult.structuredData]: a [Record<string, any>]; the fields
    the orchestrator looks up, each possibly absent. *)
Record StructuredData := {
  suggestedReviewers : option (list string);
  riskLevel : option string;
  estimatedReviewTime : option Q;
  topics : option (list string);
  sd_priority : option string;
  category : option string;
  estimatedEffort : option Z;
  suggestedAssignee : option string;
  dependencies : option (list string);
  tags : option (list string);
  readinessScore : option Z;
  blockers : option (list Blocker);
}.

Record AnalysisResult := {
  analysis : string;
  confidence : Q;
  recommendations : list string;
  structuredData : option StructuredData;
}.

(** *** Arguments of the adapter calls built by the orchestrator *)

Record PRContext := {
  ctx_title : string; ctx_description : string;
  ctx_files : list PRFile; ctx_commits : list PRCommit;
  ctx_reviews : list PRReview; ctx_teamMembers : list string;
}.

Record SimilarIssue := { si_key : string; si_summary : string }.

Record TriageContext := {
  tc_title : string; tc_description : string; tc_labels : list string;
  tc_comments : list JiraComment; tc_reporter : string;
  tc_component : option string; tc_teamContext : option string;
  tc_similarIssues : list SimilarIssue;
}.

Record BlockingIssue := { bi_key : string; bi_priority : string; bi_summary : string }.

Record TestResults := { passed : Z; failed : Z; coverage : Z }.

Record ReleaseReadinessData := {
  rd_version : string;
  rd_commits : list PRCommit;
  rd_openIssues : list BlockingIssue;
  rd_testResults : TestResults;
  rd_deploymentHistory : list string;
  rd_teamVelocity : Z * list Z;
}.

Record ReleaseRequest := {
  tag_name : string; release_name : string; release_body : string; draft : bool;
}.

Record NotificationField := { nf_title : string; nf_value : string; nf_short : bool }.

Record Notification := {
  n_title : string; n_message : string; n_color : string;
  n_fields : option (list NotificationField);
}.

(** *** Decision objects *)

Record PRAnalysisResult := {
  pra_summary : string;
  pra_suggestedReviewers : list string;
  pra_riskLevel : string;
  pra_estimatedReviewTime : Q;
  pra_topics : list string;
  pra_relatedJiraTickets : list string;
}.

Record IssueTriageResult := {
  itr_priority : string;
  itr_category : string;
  itr_estimatedEffort : Z;
  itr_suggestedAssignee : option string;
  itr_suggestedSprint : option string;
  itr_dependencies : list string;
  itr_tags : list string;
}.

Inductive Recommendation := proceed | caution | block.

#[global] Instance Recommendation_eq_dec : EqDecision Recommendation.
Proof. solve_decision. Defined.

Definition recommendation_name (r : Recommendation) : string :=
  match r with proceed => "proceed" | caution => "caution" | block => "block" end.

Record ReleaseAnalysis := {
  readiness : Z;
  ra_blockers : list Blocker;
  testCoverage : Z;
  openIssues : Z;
  recommendation : Recommendation;
  suggestedActions : list string;
}.

(** ** Observable actions *)

(** One entry per adapter call, per [this.workflowState.set] and per entry
    into [updateStatusOnPlatform]. *)
Inductive Event :=
| StoreSet (workflowId : string) (s : WorkflowStatus)
| PlatformSync (p : Platform)
| GetPRDetails (o r : string) (n : Z)
| GetIssueDetails (o r : string) (n : option Z)
| GetRepositoryStats (o r : string)
| CreateRelease (o r : string) (rel : ReleaseRequest)
| UpdatePRStatus (o r : string) (n : option Z) (state descr : string)
| GetIssue (k : string)
| SearchIssues (jql : string) (maxResults : Z)
| AddCommentToIssue (k comment : string)
| GetProjectIssueStats (project : string)
| FindChannelByName (name : string)
| SendNotification (channel : string) (n : Notification)
| AnalyzePullRequest (ctx : PRContext)
| TriageIssue (ctx : TriageContext)
| AssessReleaseReadiness (d : ReleaseReadinessData).

(** ** The collaborators

    Every adapter method is an oracle: given the trace at the moment of the
    call and the arguments, it tells how the returned promise settles.
    [now] is the clock read by [new Date()], indexed by the number of
    earlier reads; [settle] is the order in which the three reads that
    [orchestrateRelease] issues in parallel settle (indices into the
    [Promise.all] array), as a function of the trace once they are
    issued. *)
Record World := {
  getPRDetails : list Event -> string -> string -> Z -> Outcome PRDetails;
  getIssueDetails : list Event -> string -> string -> option Z -> Outcome IssueDetails;
  getRepositoryStats : list Event -> string -> string -> Outcome RepositoryStats;
  createRelease : list Event -> string -> string -> ReleaseRequest -> Outcome unit;
  updatePRStatus : list Event -> string -> string -> option Z -> string -> string -> Outcome unit;
  getIssue : list Event -> string -> Outcome JiraIssue;
  searchIssues : list Event -> string -> Z -> Outcome (list JiraIssue);
  addCommentToIssue : list Event -> string -> string -> Outcome unit;
  getProjectIssueStats : list Event -> string -> Outcome ProjectIssueStats;
  findChannelByName : list Event -> string -> Outcome (option SlackChannel);
  sendNotification : list Event -> string -> Notification -> Outcome unit;
  analyzePullRequest : list Event -> PRContext -> Outcome AnalysisResult;
  triageIssue : list Event -> TriageContext -> Outcome AnalysisResult;
  assessReleaseReadiness : list Event -> ReleaseReadinessData -> Outcome AnalysisResult;
  now : nat -> Z;
  settle : list Event -> list nat;
}.

(** ** The monad of one operation *)

Record State := {
  workflowState : gmap string WorkflowStatus;
  trace : list Event;
  dates : nat;
}.

Definition M (A : Type) : Type := State -> Outcome A * State.

Definition ret {A} (a : A) : M A := fun st => (Resolved a, st).

Definition bind {A B} (m : M A) (k : A -> M B) : M B :=
  fun st =>
    match m st with
    | (Resolved a, st') => k a st'
    | (Rejected e, st') => (Rejected e, st')
    end.

Definition throw {A} (e : Thrown) : M A := fun st => (Rejected e, st).

(** [try { body } catch (error) { handler }]: what the body did to the
    state before it threw stays done. *)
Definition try_catch {A} (body : M A) (handler : Thrown -> M A) : M A :=
  fun st =>
    match body st with
    | (Resolved a, st') => (Resolved a, st')
    | (Rejected e, st') => handler e st'
    end.

Notation "x <- c ;; k" := (bind c (fun x => k))
  (at level 100, c at next level, right associativity).
Notation "c ;;; k" := (bind c (fun _ => k))
  (at level 100, right associativity).

Definition emit (ev : Event) : M unit :=
  fun st =>
    (Resolved tt,
     {| workflowState := workflowState st; trace := trace st ++ [ev];
        dates := dates st |}).

(** Calling an adapter method: the call is recorded, and the promise it
    returns is already decided by the oracle. *)
Definition start {A} (ev : Event) (oracle : list Event -> Outcome A)
    : M (Outcome A) :=
  fun st =>
    (Resolved (oracle (trace st)),
     {| workflowState := workflowState st; trace := trace st ++ [ev];
        dates := dates st |}).

Definition await {A} (p : Outcome A) : M A := fun st => (p, st).

Definition call {A} (ev : Event) (oracle : list Event -> Outcome A) : M A :=
  p <- start ev oracle ;; await p.

Definition rejection {A} (p : Outcome A) : option Thrown :=
  match p with Resolved _ => None | Rejected e => Some e end.

(** The reason [Promise.all] rejects with: that of the first promise to be
    rejected, in settling order (array order for what [order] leaves
    out). *)
Definition first_rejected (order : list nat) (rs : list (option Thrown))
    : option Thrown :=
  head (omap (fun i => mjoin (rs !! i)) (order ++ seq 0 (length rs))).

Definition promise_all3 {A B C} (order : list nat)
    (a : Outcome A) (b : Outcome B) (c : Outcome C) : Outcome (A * B * C) :=
  let first := first_rejected order [rejection a; rejection b; rejection c] in
  match a, b, c with
  | Resolved x, Resolved y, Resolved z => Resolved (x, y, z)
  | Rejected e, _, _ | _, Rejected e, _ | _, _, Rejected e =>
      Rejected (default e first)
  end.

(** ** The orchestrator's pure helpers *)

Fixpoint span (p : ascii -> bool) (s : string) : string * string :=
  match s with
  | EmptyString => (EmptyString, EmptyString)
  | String c r =>
      if p c then let (a, b) := span p r in (String c a, b)
      else (EmptyString, s)
  end.

(** A match of [/([A-Z]+-\d+)/] anchored at the head of [s].  Both
    quantifiers are greedy and the hyphen is in neither class, so the
    match takes the whole run of capitals and the whole run of digits. *)
Definition match_jira_key (s : string) : option string :=
  let (caps, r) := span Js.is_upper s in
  match caps, r with
  | String _ _, String "-" r' =>
      match span Js.is_digit r' with
      | (String d ds, _) => Some (caps +:+ "-" +:+ String d ds)
      | (EmptyString, _) => None
      end
  | _, _ => None
  end.

(** [[...text.matchAll(/([A-Z]+-\d+)/g)].map(m => m[1])]: matches from left
    to right, the search resuming after each match.  [skip] counts the
    characters still covered by the previous match. *)
Fixpoint match_all_jira_keys (s : string) (skip : nat) : list string :=
  match s with
  | EmptyString => []
  | String _ r =>
      match skip with
      | S k => match_all_jira_keys r k
      | O =>
          match match_jira_key s with
          | Some tok => tok :: match_all_jira_keys r (String.length tok - 1)
          | None => match_all_jira_keys r 0
          end
      end
  end.

(** [extractJiraContext]: [null] when no ticket key occurs. *)
Definition extractJiraContext (title body : string) : option (list string) :=
  let matches := match_all_jira_keys (title +:+ " " +:+ body) 0 in
  let tickets := Js.uniq (filter (fun t => Js.truthy t = true) matches) in
  if (0 <? length tickets)%nat then Some tickets else None.

Definition stopWords : list string :=
  ["the"; "and"; "or"; "but"; "in"; "on"; "at"; "to"; "for"; "of"; "with"; "by"].

Definition extractKeywords (text : string) : list string :=
  let words := Js.split_ws (Js.toLowerCase text) false in
  Js.slice0 10
    (filter (fun word =>
               (3 <? String.length word)%nat
               && negb (Js.array_includes stopWords word) = true) words).

Definition determineReleaseRecommendation (readinessScore : Z) : Recommendation :=
  if 85 <=? readinessScore then proceed
  else if 70 <=? readinessScore then caution
  else block.

(** The record literal written at a phase change. *)
Definition phase_record (workflowId : string) (t : WorkflowType)
    (phase : string) (d : Z) (sv : gmap string (gmap string string))
    : WorkflowStatus :=
  {| id := workflowId; type := t; status := phase; lastUpdated := d;
     services := sv |}.

(** The [workflowId] of each operation. *)
Definition pr_workflow_id (params : PRAnalysisParams) : string :=
  "pr-" +:+ owner params +:+ "-" +:+ repo params +:+ "-"
  +:+ Js.of_int (pull_number params).

Definition triage_workflow_id (params : SmartTriageParams) : string :=
  "triage-" +:+ issue_key params.

Definition release_workflow_id (params : ReleaseOrchestrationParams) : string :=
  "release-" +:+ release_version params.

(** ** The orchestrator *)

Section Orchestrator.

Variable W : World.

Definition new_date : M Z :=
  fun st =>
    (Resolved (now W (dates st)),
     {| workflowState := workflowState st; trace := trace st;
        dates := S (dates st) |}).

(** [this.workflowState.get(id)]. *)
Definition store_get (workflowId : string) : M (option WorkflowStatus) :=
  fun st => (Resolved (workflowState st !! workflowId), st).

(** [this.workflowState.set(id, status)]. *)
Definition store_set (workflowId : string) (s : WorkflowStatus) : M unit :=
  fun st =>
    (Resolved tt,
     {| workflowState := <[workflowId := s]> (workflowState st);
        trace := trace st ++ [StoreSet workflowId s];
        dates := dates st |}).

Definition updateWorkflowStatus (workflowId : string) (s : WorkflowStatus)
    : M unit :=
  store_set workflowId s.

(** What every phase does: [this.updateWorkflowStatus(workflowId, { id,
    type, status, lastUpdated: new Date(), services })]. *)
Definition mark (workflowId : string) (t : WorkflowType) (phase : string)
    (sv : gmap string (gmap string string)) : M unit :=
  d <- new_date ;;
  updateWorkflowStatus workflowId (phase_record workflowId t phase d sv).

Definition getTeamMembers (o r : string) : M (list string) :=
  try_catch
    (stats <- call (GetRepositoryStats o r)
                (fun h => getRepositoryStats W h o r) ;;
     ret (contributors stats))
    (fun _ => ret []).

Definition analyzePR (params : PRAnalysisParams) : M PRAnalysisResult :=
  let workflowId := pr_workflow_id params in
  try_catch
    (mark workflowId pr "analyzing" ∅ ;;;
     prDetails <- call (GetPRDetails (owner params) (repo params) (pull_number params))
                    (fun h => getPRDetails W h (owner params) (repo params)
                                (pull_number params)) ;;
     let jiraContext :=
       if default false (include_jira_context params)
       then extractJiraContext (pr_title prDetails) (pr_body prDetails)
       else None in
     teamMembers <- getTeamMembers (owner params) (repo params) ;;
     let ctx :=
       {| ctx_title := pr_title prDetails;
          ctx_description := pr_body prDetails;
          ctx_files := pr_files prDetails;
          ctx_commits := pr_commits prDetails;
          ctx_reviews := pr_reviews prDetails;
          ctx_teamMembers := teamMembers |} in
     aiAnalysis <- call (AnalyzePullRequest ctx)
                     (fun h => analyzePullRequest W h ctx) ;;
     let sd := structuredData aiAnalysis in
     let result :=
       {| pra_summary := analysis aiAnalysis;
          pra_suggestedReviewers := Js.or_list (sd ≫= suggestedReviewers) [];
          pra_riskLevel := Js.or_string (sd ≫= riskLevel) "medium";
          pra_estimatedReviewTime :=
            match sd ≫= estimatedReviewTime with
            | Some t => if Qeq_bool t 0 then 2%Q else t
            | None => 2%Q
            end;
          pra_topics := Js.or_list (sd ≫= topics) [];
          pra_relatedJiraTickets := Js.or_list jiraContext [] |} in
     mark workflowId pr "completed"
       {[ "github" :=
            {[ "status" := "analyzed";
               "url" := "https://github.com/" +:+ owner params +:+ "/"
                        +:+ repo params +:+ "/pull/"
                        +:+ Js.of_int (pull_number params) ]} ]} ;;;
     ret result)
    (fun error =>
       mark workflowId pr "failed" ∅ ;;;
       throw error).

(** [extractGitHubIssueContext]: every failure is caught and gives
    [null]. *)
Definition extractGitHubIssueContext (url : string) : M (option IssueDetails) :=
  try_catch
    (let urlParts := Js.split "/" url in
     let o := Js.from_end urlParts 4 in
     let r := Js.from_end urlParts 3 in
     let issueNumberStr := Js.from_end urlParts 1 in
     if negb (Js.truthy_opt issueNumberStr)
     then throw (Error "Invalid GitHub issue URL")
     else
       let issueNumber := Js.parseInt (default "" issueNumberStr) in
       if negb (Js.truthy_opt o) || negb (Js.truthy_opt r)
       then throw (Error "Invalid GitHub issue URL format")
       else
         d <- call (GetIssueDetails (default "" o) (default "" r) issueNumber)
                (fun h => getIssueDetails W h (default "" o) (default "" r)
                            issueNumber) ;;
         ret (Some d))
    (fun _ => ret None).

Definition findSimilarIssues (title descr : string) : M (list SimilarIssue) :=
  try_catch
    (let keywords := extractKeywords (title +:+ " " +:+ descr) in
     let jql :=
       "text ~ " +:+ dq +:+ Js.join " OR " (Js.slice0 3 keywords) +:+ dq
       +:+ " ORDER BY created DESC" in
     issues <- call (SearchIssues jql 5) (fun h => searchIssues W h jql 5) ;;
     ret (map (fun i => {| si_key := key i; si_summary := summary i |}) issues))
    (fun _ => ret []).

Definition getSuggestedSprint (issueKey : string) : M (option string) :=
  try_catch
    (i <- call (GetIssue issueKey) (fun h => getIssue W h issueKey) ;;
     ret (Some (Js.or_string (sprint i) "Next Sprint")))
    (fun _ => ret None).

Definition smartTriage (params : SmartTriageParams) : M IssueTriageResult :=
  let workflowId := triage_workflow_id params in
  try_catch
    (mark workflowId issue "triaging" ∅ ;;;
     jiraIssue <- call (GetIssue (issue_key params))
                    (fun h => getIssue W h (issue_key params)) ;;
     githubContext <-
       (if Js.truthy_opt (github_issue_url params)
        then extractGitHubIssueContext (default "" (github_issue_url params))
        else ret None) ;;
     similarIssues <- findSimilarIssues (summary jiraIssue) (description jiraIssue) ;;
     let ctx :=
       {| tc_title := summary jiraIssue;
          tc_description := description jiraIssue;
          tc_labels := labels jiraIssue;
          tc_comments := comments jiraIssue;
          tc_reporter := reporter jiraIssue;
          tc_component := head (components jiraIssue);
          tc_teamContext := team_context params;
          tc_similarIssues := similarIssues |} in
     aiAnalysis <- call (TriageIssue ctx) (fun h => triageIssue W h ctx) ;;
     let sd := structuredData aiAnalysis in
     suggestedSprint <- getSuggestedSprint (issue_key params) ;;
     let result :=
       {| itr_priority := Js.or_string (sd ≫= sd_priority) "medium";
          itr_category := Js.or_string (sd ≫= category) "story";
          itr_estimatedEffort := Js.or_int (sd ≫= estimatedEffort) 3;
          itr_suggestedAssignee := sd ≫= suggestedAssignee;
          itr_suggestedSprint := suggestedSprint;
          itr_dependencies := Js.or_list (sd ≫= dependencies) [];
          itr_tags := Js.or_list (sd ≫= tags) [] |} in
     let comment :=
       "🤖 IDWO Smart Triage Analysis:" +:+ nl +:+ nl
       +:+ analysis aiAnalysis +:+ nl +:+ nl
       +:+ "Recommended Priority: " +:+ itr_priority result +:+ nl
       +:+ "Estimated Effort: " +:+ Js.of_int (itr_estimatedEffort result)
       +:+ " story points" in
     call (AddCommentToIssue (issue_key params) comment)
       (fun h => addCommentToIssue W h (issue_key params) comment) ;;;
     mark workflowId issue "completed"
       {[ "jira" := {[ "status" := "triaged"; "key" := issue_key params ]} ]} ;;;
     ret result)
    (fun error =>
       mark workflowId issue "failed" ∅ ;;;
       throw error).

Definition getBlockingIssues (projectKey : string) : M (list BlockingIssue) :=
  try_catch
    (let jql :=
       "project = " +:+ dq +:+ projectKey +:+ dq
       +:+ " AND status NOT IN (" +:+ dq +:+ "Done" +:+ dq +:+ ", "
       +:+ dq +:+ "Closed" +:+ dq +:+ ") AND priority = "
       +:+ dq +:+ "Highest" +:+ dq in
     issues <- call (SearchIssues jql 10) (fun h => searchIssues W h jql 10) ;;
     ret (map (fun i => {| bi_key := key i; bi_priority := priority i;
                           bi_summary := summary i |}) issues))
    (fun _ => ret []).

Definition getTestResults (o r : string) : M TestResults :=
  ret {| passed := 0; failed := 0; coverage := 0 |}.

Definition getDeploymentHistory (o r : string) : M (list string) := ret [].

Definition invalid_repository : Thrown :=
  Error ("Invalid repository format. Expected " +:+ dq +:+ "owner/repo" +:+ dq).

Definition executeRelease (params : ReleaseOrchestrationParams)
    (a : ReleaseAnalysis) : M unit :=
  let repoParts := Js.split "/" (repository params) in
  let o := repoParts !! 0%nat in
  let r := repoParts !! 1%nat in
  if negb (Js.truthy_opt o) || negb (Js.truthy_opt r)
  then throw invalid_repository
  else
    try_catch
      (let rel :=
         {| tag_name := release_version params;
            release_name := "Release " +:+ release_version params;
            release_body :=
              "🤖 Automated release created by IDWO" +:+ nl +:+ nl
              +:+ "Readiness Score: " +:+ Js.of_int (readiness a) +:+ "%"
              +:+ nl +:+ nl +:+ "Suggested Actions:" +:+ nl
              +:+ Js.join nl (map (fun action => "- " +:+ action)
                                (suggestedActions a));
            draft := negb (bool_decide (recommendation a = proceed)) |} in
       call (CreateRelease (default "" o) (default "" r) rel)
         (fun h => createRelease W h (default "" o) (default "" r) rel))
      (fun error => throw error).

Definition promise_all {A B C} (a : Outcome A) (b : Outcome B) (c : Outcome C)
    : M (A * B * C) :=
  fun st => (promise_all3 (settle W (trace st)) a b c, st).

Definition orchestrateRelease (params : ReleaseOrchestrationParams)
    : M ReleaseAnalysis :=
  let workflowId := release_workflow_id params in
  let repoParts := Js.split "/" (repository params) in
  let o := repoParts !! 0%nat in
  let r := repoParts !! 1%nat in
  if negb (Js.truthy_opt o) || negb (Js.truthy_opt r)
  then throw invalid_repository
  else
    let o := default "" o in
    let r := default "" r in
    try_catch
      (mark workflowId release "analyzing" ∅ ;;;
       p1 <- start (GetRepositoryStats o r)
               (fun h => getRepositoryStats W h o r) ;;
       p2 <- start (GetProjectIssueStats (jira_project params))
               (fun h => getProjectIssueStats W h (jira_project params)) ;;
       p3 <- start (FindChannelByName (slack_channel params))
               (fun h => findChannelByName W h (slack_channel params)) ;;
       reads <- promise_all p1 p2 p3 ;;
       let '(repoStats, jiraStats, slackChannel) := reads in
       match slackChannel with
       | None =>
           throw (Error ("Slack channel " +:+ slack_channel params
                         +:+ " not found"))
       | Some slackChannel =>
           blocking <- getBlockingIssues (jira_project params) ;;
           testResults <- getTestResults o r ;;
           deploymentHistory <- getDeploymentHistory o r ;;
           let releaseReadinessData :=
             {| rd_version := release_version params;
                rd_commits := [];
                rd_openIssues := blocking;
                rd_testResults := testResults;
                rd_deploymentHistory := deploymentHistory;
                rd_teamVelocity := (0, []) |} in
           aiAnalysis <- call (AssessReleaseReadiness releaseReadinessData)
                           (fun h => assessReleaseReadiness W h
                                       releaseReadinessData) ;;
           let sd := structuredData aiAnalysis in
           let result :=
             {| readiness := Js.or_int (sd ≫= readinessScore) 70;
                ra_blockers := Js.or_list (sd ≫= blockers) [];
                testCoverage := Js.or_int (Some (coverage testResults)) 0;
                openIssues := totalIssues jiraStats;
                recommendation :=
                  determineReleaseRecommendation
                    (Js.or_int (sd ≫= readinessScore) 70);
                suggestedActions := recommendations aiAnalysis |} in
           (if negb (default false (dry_run params))
               && bool_decide (recommendation result = proceed)
            then executeRelease params result
            else ret tt) ;;;
           let notification :=
             {| n_title := "🚀 Release " +:+ release_version params
                           +:+ " Analysis";
                n_message :=
                  "Readiness Score: " +:+ Js.of_int (readiness result)
                  +:+ "% - "
                  +:+ Js.toUpperCase
                        (recommendation_name (recommendation result));
                n_color :=
                  match recommendation result with
                  | proceed => "good"
                  | caution => "warning"
                  | block => "danger"
                  end;
                n_fields :=
                  Some
                    [ {| nf_title := "Readiness Score";
                         nf_value := Js.of_int (readiness result) +:+ "%";
                         nf_short := true |};
                      {| nf_title := "Test Coverage";
                         nf_value := Js.of_int (testCoverage result) +:+ "%";
                         nf_short := true |};
                      {| nf_title := "Open Issues";
                         nf_value := Js.of_int (openIssues result);
                         nf_short := true |};
                      {| nf_title := "Blockers";
                         nf_value :=
                           Js.of_int (Z.of_nat (length (ra_blockers result)));
                         nf_short := true |} ] |} in
           call (SendNotification (channel_id slackChannel) notification)
             (fun h => sendNotification W h (channel_id slackChannel)
                         notification) ;;;
           mark workflowId release "completed"
             {[ "github" :=
                  {[ "status" := "analyzed";
                     "url" := "https://github.com/" +:+ repository params ]};
                "jira" :=
                  {[ "status" := "analyzed"; "key" := jira_project params ]};
                "slack" :=
                  {[ "channel" := channel_id slackChannel;
                     "messageId" := "notification-sent" ]} ]} ;;;
           ret result
       end)
      (fun error =>
         mark workflowId release "failed" ∅ ;;;
         throw error).

Definition updateStatusOnPlatform (platform : Platform) (s : WorkflowStatus)
    (statusUpdate : string) : M unit :=
  emit (PlatformSync platform) ;;;
  match platform with
  | github =>
      let url := pointer_field s "github" "url" in
      if Js.truthy_opt url then
        let urlParts := Js.split "/" (default "" url) in
        if Js.array_includes urlParts "pull" then
          let o := Js.from_end urlParts 4 in
          let r := Js.from_end urlParts 3 in
          let pullNumberStr := Js.from_end urlParts 1 in
          if negb (Js.truthy_opt pullNumberStr)
          then throw (Error "Invalid GitHub PR URL")
          else
            let pullNumber := Js.parseInt (default "" pullNumberStr) in
            if negb (Js.truthy_opt o) || negb (Js.truthy_opt r)
            then throw (Error "Invalid GitHub PR URL format")
            else
              call (UpdatePRStatus (default "" o) (default "" r) pullNumber
                      "pending" ("IDWO: " +:+ statusUpdate))
                (fun h => updatePRStatus W h (default "" o) (default "" r)
                            pullNumber "pending" ("IDWO: " +:+ statusUpdate))
        else ret tt
      else ret tt
  | jira =>
      let k := pointer_field s "jira" "key" in
      if Js.truthy_opt k then
        call (AddCommentToIssue (default "" k)
                ("🤖 IDWO Status Update: " +:+ statusUpdate))
          (fun h => addCommentToIssue W h (default "" k)
                      ("🤖 IDWO Status Update: " +:+ statusUpdate))
      else ret tt
  | slack =>
      let ch := pointer_field s "slack" "channel" in
      if Js.truthy_opt ch then
        let notification :=
          {| n_title := "🔄 Workflow Status Update";
             n_message :=
               Js.toUpperCase (type_name (type s)) +:+ " " +:+ id s
               +:+ ": " +:+ statusUpdate;
             n_color :=
               if Js.includes (Js.toLowerCase statusUpdate) "failed"
               then "danger" else "good";
             n_fields := None |} in
        call (SendNotification (default "" ch) notification)
          (fun h => sendNotification W h (default "" ch) notification)
      else ret tt
  end.

(** [(updatedStatus.services as any)[platform] = obj].  [updatedStatus]
    is a shallow copy ([{...existingStatus, ...}]) of the record held by
    the map, so the [services] object assigned to is the stored record's
    as well: the stored record changes together with the copy. *)
Definition assign_service (workflowId : string) (updated : WorkflowStatus)
    (platform : string) (obj : gmap string string) : M WorkflowStatus :=
  fun st =>
    let sv := <[platform := obj]> (services updated) in
    (Resolved (with_services updated sv),
     {| workflowState :=
          alter (fun stored => with_services stored sv) workflowId
            (workflowState st);
        trace := trace st; dates := dates st |}).

(** One iteration of the [for ... of] loop: the push, then the merge
    [{ status: params.status_update, ...currentService }], in which the
    fields spread last win; a failure of the push is caught and leaves
    [updatedStatus] as it was. *)
Definition sync_platform (params : WorkflowStatusParams)
    (updatedStatus : WorkflowStatus) (platform : Platform) : M WorkflowStatus :=
  try_catch
    (updateStatusOnPlatform platform updatedStatus (status_update params) ;;;
     let currentService := services updatedStatus !! platform_name platform in
     assign_service (workflow_id params) updatedStatus (platform_name platform)
       (default ∅ currentService ∪ {[ "status" := status_update params ]}))
    (fun _ => ret updatedStatus).

Fixpoint sync_platforms (params : WorkflowStatusParams)
    (updatedStatus : WorkflowStatus) (ps : list Platform) : M WorkflowStatus :=
  match ps with
  | [] => ret updatedStatus
  | platform :: rest =>
      updatedStatus' <- sync_platform params updatedStatus platform ;;
      sync_platforms params updatedStatus' rest
  end.

Definition syncWorkflowStatus (params : WorkflowStatusParams) : M WorkflowStatus :=
  try_catch
    (existingStatus <- store_get (workflow_id params) ;;
     match existingStatus with
     | None =>
         throw (Error ("Workflow " +:+ workflow_id params +:+ " not found"))
     | Some existingStatus =>
         d <- new_date ;;
         let updatedStatus :=
           {| id := id existingStatus; type := type existingStatus;
              status := status_update params; lastUpdated := d;
              services := services existingStatus |} in
         updatedStatus <-
           sync_platforms params updatedStatus
             (Js.or_list (platforms params) [github; jira; slack]) ;;
         store_set (workflow_id params) updatedStatus ;;;
         ret updatedStatus
     end)
    (fun error => throw error).

End Orchestrator.

(** ** The LLM agent ([src/agents/openai.ts]) *)

(** The object that [JSON.parse] yields from the model's reply. *)
Record ParsedResult := {
  parsed_analysis : string;
  parsed_confidence : Q;
  parsed_recommendations : list string;
  parsed_structured_data : option StructuredData;
}.

(** [analyzeContext], from the outcome of the request and of [JSON.parse]
    on: the reply is repackaged with the confidence clamped, and whatever is
    thrown is wrapped into a [ServiceError]. *)
Definition analyzeContext (reply : Outcome ParsedResult) : Outcome AnalysisResult :=
  match reply with
  | Resolved parsedResult =>
      Resolved
        {| analysis := parsed_analysis parsedResult;
           confidence := Qmax 0 (Qmin 100 (parsed_confidence parsedResult));
           recommendations := parsed_recommendations parsedResult;
           structuredData := parsed_structured_data parsedResult |}
  | Rejected error =>
      Rejected
        (ServiceError ("OpenAI analysis failed: " +:+ message_of error)
           SvcOpenai None (Js.includes (message_of error) "rate limit"))
  end.

(** The shape shared by [analyzePullRequest], [triageIssue],
    [assessReleaseReadiness] and [generateTeamInsights]:
    [{ ...result, structuredData }] over the result of [analyzeContext],
    with [extract] standing for the method's extractors. *)
Definition with_structured (extract : AnalysisResult -> StructuredData)
    (reply : Outcome ParsedResult) : Outcome AnalysisResult :=
  match analyzeContext reply with
  | Resolved result =>
      Resolved
        {| analysis := analysis result;
           confidence := confidence result;
           recommendations := recommendations result;
           structuredData := Some (extract result) |}
  | Rejected e => Rejected e
  end.

Inductive Trend := increasing | decreasing | stable.

(** [l.slice(-n)] and [l.slice(0, -n)]. *)
Definition slice_last {A} (n : nat) (l : list A) : list A :=
  drop (length l - n) l.

Definition slice_but_last {A} (n : nat) (l : list A) : list A :=
  take (length l - n) l.

(** [l.reduce((a, b) => a + b, 0) / l.length]; [0 / 0] is [NaN]. *)
Definition average (l : list Q) : option Q :=
  match l with
  | [] => None
  | _ => Some (fold_left Qplus l 0%Q / inject_Z (Z.of_nat (length l)))%Q
  end.

(** [a > b * k] and [a < b * k], false as soon as a side is [NaN]. *)
Definition gt_scaled (a b : option Q) (k : Q) : bool :=
  match a, b with
  | Some x, Some y => negb (Qle_bool x (y * k))
  | _, _ => false
  end.

Definition lt_scaled (a b : option Q) (k : Q) : bool :=
  match a, b with
  | Some x, Some y => negb (Qle_bool (y * k) x)
  | _, _ => false
  end.

(** [calculateVelocityTrend(velocity)], on [velocity.historical]. *)
Definition calculateVelocityTrend (historical : list Q) : Trend :=
  if (length historical <? 2)%nat then stable
  else
    let recent := slice_last 3 historical in
    let earlier := slice_but_last 3 historical in
    let recentAvg := average recent in
    let earlierAvg := average earlier in
    if gt_scaled recentAvg earlierAvg (11 # 10) then increasing
    else if lt_scaled recentAvg earlierAvg (9 # 10) then decreasing
    else stable.

(** ** Test doubles *)

Definition unavailable (svc : Service) : Thrown :=
  ServiceError "service unavailable" svc (Some 503) true.

Definition mock_pr : PRDetails :=
  {| pr_title := "Test PR"; pr_body := "Implements PROJ-456 and PROJ-456";
     pr_files := []; pr_commits := []; pr_reviews := [] |}.

Definition mock_issue : JiraIssue :=
  {| key := "PROJ-789"; summary := "Critical bug in payment system";
     description := "Payment processing fails intermittently";
     priority := "High"; reporter := "user@example.com";
     labels := ["payment"]; components := ["backend"]; sprint := None;
     comments := [] |}.

Definition mock_analysis (score : Z) : AnalysisResult :=
  {| analysis := "Test analysis"; confidence := 80;
     recommendations := ["Run final integration tests"];
     structuredData :=
       Some {| suggestedReviewers := None; riskLevel := None;
               estimatedReviewTime := None; topics := None;
               sd_priority := Some "critical"; category := Some "bug";
               estimatedEffort := Some 8; suggestedAssignee := None;
               dependencies := None; tags := None;
               readinessScore := Some score; blockers := None |} |}.

(** A world in which every call resolves, except that the GitHub reads
    reject when [github_down], the Jira comment write rejects when
    [comment_fails], and the channel lookup resolves to [channel]. *)
Definition mock_world (github_down comment_fails : bool)
    (channel : option SlackChannel) (score : Z) : World :=
  {| getPRDetails := fun _ _ _ _ =>
       if github_down then Rejected (unavailable SvcGithub) else Resolved mock_pr;
     getIssueDetails := fun _ _ _ _ => Rejected (unavailable SvcGithub);
     getRepositoryStats := fun _ _ _ =>
       if github_down then Rejected (unavailable SvcGithub)
       else Resolved {| contributors := ["dev1"; "dev2"] |};
     createRelease := fun _ _ _ _ => Resolved tt;
     updatePRStatus := fun _ _ _ _ _ _ => Resolved tt;
     getIssue := fun _ _ => Resolved mock_issue;
     searchIssues := fun _ _ _ => Resolved [];
     addCommentToIssue := fun _ _ _ =>
       if comment_fails then Rejected (unavailable SvcJira) else Resolved tt;
     getProjectIssueStats := fun _ _ => Resolved {| totalIssues := 10 |};
     findChannelByName := fun _ _ => Resolved channel;
     sendNotification := fun _ _ _ => Resolved tt;
     analyzePullRequest := fun _ _ => Resolved (mock_analysis score);
     triageIssue := fun _ _ => Resolved (mock_analysis score);
     assessReleaseReadiness := fun _ _ => Resolved (mock_analysis score);
     now := fun n => 1700000000 + Z.of_nat n;
     settle := fun _ => [0; 1; 2]%nat |}.

Definition init : State := {| workflowState := ∅; trace := []; dates := 0 |}.

Definition releases_channel : SlackChannel :=
  {| channel_id := "C123456"; channel_name := "releases" |}.

(** The calls of the specification's examples and of the test-suite. *)
Definition pr_o_r_1 : PRAnalysisParams :=
  {| owner := "o"; repo := "r"; pull_number := 1;
     include_jira_context := None |}.

Definition sync_in_review (ps : option (list Platform)) : WorkflowStatusParams :=
  {| workflow_id := "pr-o-r-1"; status_update := "in-review"; platforms := ps |}.

Definition triage_PROJ_789 : SmartTriageParams :=
  {| issue_key := "PROJ-789"; github_issue_url := None;
     team_context := Some "backend-team" |}.

Definition release_v1 : ReleaseOrchestrationParams :=
  {| release_version := "v1.0.0"; repository := "test/repo";
     jira_project := "PROJ"; slack_channel := "#nonexistent";
     dry_run := None |}.


(** The audit comment that [smartTriage] writes in the mock world. *)
Definition mock_comment : string :=
  "🤖 IDWO Smart Triage Analysis:" +:+ nl +:+ nl +:+ "Test analysis"
  +:+ nl +:+ nl +:+ "Recommended Priority: critical" +:+ nl
  +:+ "Estimated Effort: 8 story points".

(** ** Reading a run *)

(** What a run from [st] to [st'] added to the trace. *)
Definition events_since (st st' : State) : list Event :=
  drop (length (trace st)) (trace st').

(** The statuses written to the map under [workflowId], in order. *)
Definition writes_of (workflowId : string) (evs : list Event) : list string :=
  omap (fun ev =>
          match ev with
          | StoreSet k s =>
              if String.eqb k workflowId then Some (status s) else None
          | _ => None
          end) evs.

(** The platforms the sync loop went through, in order. *)
Definition dispatches (evs : list Event) : list Platform :=
  omap (fun ev => match ev with PlatformSync p => Some p | _ => None end) evs.

Definition is_create_release (ev : Event) : bool :=
  match ev with CreateRelease _ _ _ => true | _ => false end.

Definition is_comment (ev : Event) : bool :=
  match ev with AddCommentToIssue _ _ => true | _ => false end.

Definition resolved {A} (o : Outcome A) : bool :=
  match o with Resolved _ => true | Rejected _ => false end.

(** The part of a list before its first element satisfying [P]. *)
Fixpoint before {A} (P : A -> bool) (l : list A) : list A :=
  match l with
  | [] => []
  | x :: r => if P x then [] else x :: before P r
  end.

(** A run that writes [first] and then, as its last write, [completed] when
    it resolves and [failed] when it rejects; the map ends with that
    status. *)
Definition two_phase {A} (first workflowId : string) (st : State)
    (run : Outcome A * State) : Prop :=
  let evs := events_since st (snd run) in
  let final := status <$> workflowState (snd run) !! workflowId in
  (resolved (fst run) = true
   /\ writes_of workflowId evs = [first; "completed"]
   /\ final = Some "completed")
  \/ (resolved (fst run) = false
      /\ writes_of workflowId evs = [first; "failed"]
      /\ final = Some "failed").

(** The [services] object after
    [services[platform] = { status: update, ...services[platform] }]: the
    fields spread last win, so a pointer that has a [status] keeps it. *)
Definition merged_services (update : string) (u : WorkflowStatus)
    (p : Platform) : gmap string (gmap string string) :=
  <[platform_name p := default ∅ (services u !! platform_name p)
                       ∪ {[ "status" := update ]}]> (services u).

(** What the sync loop does to the copy [u] of the stored record and to the
    state while it goes through the platforms [ps]: the top-level fields
    stay, a [status] that a pointer already has stays, and the trace grows
    by one dispatch per platform, without any write to the map and without
    a release. *)
Record sync_step (u : WorkflowStatus) (st : State) (u' : WorkflowStatus)
    (st' : State) (ps : list Platform) : Prop := {
  step_id : id u' = id u;
  step_type : type u' = type u;
  step_status : status u' = status u;
  step_pointer : forall q s,
    pointer_field u q "status" = Some s -> pointer_field u' q "status" = Some s;
  step_dates : dates st' = dates st;
  step_trace : exists evs,
    trace st' = trace st ++ evs /\ dispatches evs = ps
    /\ (forall k, writes_of k evs = [])
    /\ existsb is_create_release evs = false;
}.

(** The adapter call that [updateStatusOnPlatform] issues for [platform]
    on the record [s], read off the same branches: [None] where the source
    makes no call, that is when the platform's pointer is absent or empty,
    when the GitHub url has no [pull] segment, and when the check of the
    url throws before the call. *)
Definition platform_push (platform : Platform) (s : WorkflowStatus)
    (statusUpdate : string) : option Event :=
  match platform with
  | github =>
      let url := pointer_field s "github" "url" in
      if Js.truthy_opt url then
        let urlParts := Js.split "/" (default "" url) in
        if Js.array_includes urlParts "pull" then
          let o := Js.from_end urlParts 4 in
          let r := Js.from_end urlParts 3 in
          let pullNumberStr := Js.from_end urlParts 1 in
          if negb (Js.truthy_opt pullNumberStr) then None
          else if negb (Js.truthy_opt o) || negb (Js.truthy_opt r) then None
          else
            Some (UpdatePRStatus (default "" o) (default "" r)
                    (Js.parseInt (default "" pullNumberStr))
                    "pending" ("IDWO: " +:+ statusUpdate))
        else None
      else None
  | jira =>
      let k := pointer_field s "jira" "key" in
      if Js.truthy_opt k
      then Some (AddCommentToIssue (default "" k)
                   ("🤖 IDWO Status Update: " +:+ statusUpdate))
      else None
  | slack =>
      let ch := pointer_field s "slack" "channel" in
      if Js.truthy_opt ch
      then Some (SendNotification (default "" ch)
                   {| n_title := "🔄 Workflow Status Update";
                      n_message :=
                        Js.toUpperCase (type_name (type s)) +:+ " " +:+ id s
                        +:+ ": " +:+ statusUpdate;
                      n_color :=
                        if Js.includes (Js.toLowerCase statusUpdate) "failed"
                        then "danger" else "good";
                      n_fields := None |})
      else None
  end.

(** What one turn of the sync loop adds to the trace: the dispatch to
    [updateStatusOnPlatform], then the push if there is one. *)
Definition platform_events (platform : Platform) (s : WorkflowStatus)
    (statusUpdate : string) : list Event :=
  PlatformSync platform :: option_list (platform_push platform s statusUpdate).

(** Two records that agree on what a push reads: identity, type and every
    pointer field but [status]. *)
Definition same_pointers (u u' : WorkflowStatus) : Prop :=
  id u' = id u /\ type u' = type u
  /\ forall q f, f <> "status" -> pointer_field u' q f = pointer_field u q f.

(** The guard of [orchestrateRelease] on [params.repository]. *)
Definition well_formed_repository (repository : string) : bool :=
  Js.truthy_opt (Js.split "/" repository !! 0%nat)
  && Js.truthy_opt (Js.split "/" repository !! 1%nat).

(** ** Further definitions for the properties of the code *)

(** [s] holds the character [c]; every character of [s] satisfies [p]. *)
Fixpoint has_char (c : ascii) (s : string) : bool :=
  match s with
  | EmptyString => false
  | String d r => Ascii.eqb d c || has_char c r
  end.

Fixpoint all_chars (p : ascii -> bool) (s : string) : bool :=
  match s with
  | EmptyString => true
  | String c r => p c && all_chars p r
  end.

(** A character that is neither white space nor an ASCII capital. *)
Definition keyword_char (c : ascii) : bool :=
  negb (Js.is_space c) && negb (Js.is_upper c).

(** The chat notifications of a run, and the adapter calls that write to
    a platform. *)
Definition notifications (evs : list Event) : list (string * Notification) :=
  omap (fun ev => match ev with
                  | SendNotification ch n => Some (ch, n)
                  | _ => None
                  end) evs.

Definition is_write_call (ev : Event) : bool :=
  match ev with
  | CreateRelease _ _ _ | UpdatePRStatus _ _ _ _ _ | AddCommentToIssue _ _
  | SendNotification _ _ => true
  | _ => false
  end.

(** The colour of the release notification of [orchestrateRelease]. *)
Definition color_of (r : Recommendation) : string :=
  match r with proceed => "good" | caution => "warning" | block => "danger" end.

(** The entry of [q] in [services] after a sync over [ps], against the
    entry before it: untouched, or that of a platform of [ps] with the
    update merged under the fields it had. *)
Definition entry_synced (update : string) (ps : list Platform)
    (before after : gmap string (gmap string string)) (q : string) : Prop :=
  after !! q = before !! q
  \/ ((exists p, p ∈ ps /\ platform_name p = q)
      /\ after !! q
         = Some (default ∅ (before !! q) ∪ {[ "status" := update ]})).

(** The url that [analyzePR] stores, and the url of a GitHub issue. *)
Definition pr_url (params : PRAnalysisParams) : string :=
  "https://github.com/" +:+ owner params +:+ "/" +:+ repo params +:+ "/pull/"
  +:+ Js.of_int (pull_number params).

Definition issue_url (o r : string) (n : Z) : string :=
  "https://github.com/" +:+ o +:+ "/" +:+ r +:+ "/issues/" +:+ Js.of_int n.

(** *** The extractors of the LLM agent ([src/agents/openai.ts]) *)

Definition extractRiskLevel (analysis : string) : string :=
  let lowerAnalysis := Js.toLowerCase analysis in
  if Js.includes lowerAnalysis "high risk" || Js.includes lowerAnalysis "critical"
  then "high"
  else if Js.includes lowerAnalysis "medium risk"
          || Js.includes lowerAnalysis "moderate"
  then "medium"
  else "low".

Definition extractPriority (analysis : string) : string :=
  let lowerAnalysis := Js.toLowerCase analysis in
  if Js.includes lowerAnalysis "critical" then "critical"
  else if Js.includes lowerAnalysis "high priority" then "high"
  else if Js.includes lowerAnalysis "medium priority" then "medium"
  else "low".

(** [extractReviewers]: [teamMembers] is [None] when undefined; an array,
    even empty, is truthy. *)
Definition extractReviewers (analysis : string)
    (teamMembers : option (list string)) : list string :=
  match teamMembers with
  | None => []
  | Some teamMembers =>
      let mentioned :=
        filter (fun member =>
                  Js.includes (Js.toLowerCase analysis) (Js.toLowerCase member)
                  = true) teamMembers in
      if (0 <? length mentioned)%nat then Js.slice0 3 mentioned
      else Js.slice0 2 teamMembers
  end.

(** [areas.add(x)] on a [Set], which keeps insertion order. *)
Definition set_add (areas : list string) (x : string) : list string :=
  if Js.array_includes areas x then areas else areas ++ [x].

(** The body of the [forEach] of [extractImpactAreas]. *)
Definition impact_of_file (areas : list string) (file : PRFile) : list string :=
  let path := Js.toLowerCase (filename file) in
  let areas :=
    if Js.includes path "test" then set_add areas "testing" else areas in
  let areas :=
    if Js.includes path "config" || Js.includes path "env"
    then set_add areas "configuration" else areas in
  let areas :=
    if Js.includes path "db" || Js.includes path "migration"
    then set_add areas "database" else areas in
  let areas :=
    if Js.includes path "auth" then set_add areas "authentication" else areas in
  let areas :=
    if Js.includes path "api" || Js.includes path "controller"
    then set_add areas "api" else areas in
  if Js.includes path "ui" || Js.includes path "component"
  then set_add areas "frontend" else areas.

(** [extractImpactAreas(files)]: [Array.from] of the set filled by the
    loop. *)
Definition extractImpactAreas (files : list PRFile) : list string :=
  fold_left impact_of_file files [].

(** ** Properties of the decision functions *)

(** C4: the release recommendation is [proceed] from 85 up, [caution] from
    70 up to 84 and [block] below 70; the four boundary scores 85, 84, 70
    and 69 fall on the stated sides. *)
Theorem recommendation_thresholds :
  (forall s, 85 <= s -> determineReleaseRecommendation s = proceed) /\
  (forall s, 70 <= s < 85 -> determineReleaseRecommendation s = caution) /\
  (forall s, s < 70 -> determineReleaseRecommendation s = block) /\
  determineReleaseRecommendation 85 = proceed /\
  determineReleaseRecommendation 84 = caution /\
  determineReleaseRecommendation 70 = caution /\
  determineReleaseRecommendation 69 = block.
Proof.
  unfold determineReleaseRecommendation.
  repeat split; intros; repeat case_match; try reflexivity; lia.
Qed.

Lemma recommendation_thresholds_witness :
  determineReleaseRecommendation 92 = proceed /\
  determineReleaseRecommendation 77 = caution /\
  determineReleaseRecommendation 12 = block.
Proof.
  destruct recommendation_thresholds as (Hp & Hc & Hb & _).
  split; [apply Hp; lia | split; [apply Hc; lia | apply Hb; lia]].
Defined.

(** C5: whatever confidence the model's reply carries, the
    [AnalysisResult] that [analyzeContext] returns, and that every agent
    method passes on, has it clamped to [max(0, min(100, c))], so within
    [0, 100]; -5 becomes 0 and 150 becomes 100. *)
Theorem confidence_clamped :
  (forall p : ParsedResult,
     exists r,
       analyzeContext (Resolved p) = Resolved r /\
       confidence r = Qmax 0 (Qmin 100 (parsed_confidence p)) /\
       (0 <= confidence r)%Q /\ (confidence r <= 100)%Q /\
       forall extract,
         exists r',
           with_structured extract (Resolved p) = Resolved r' /\
           confidence r' = confidence r) /\
  (forall a rs sd,
     analyzeContext (Resolved (Build_ParsedResult a (-5) rs sd))
     = Resolved (Build_AnalysisResult a 0 rs sd)) /\
  (forall a rs sd,
     analyzeContext (Resolved (Build_ParsedResult a 150 rs sd))
     = Resolved (Build_AnalysisResult a 100 rs sd)).
Proof.
  split; [| split; reflexivity].
  intros p. eexists. split; [reflexivity |]. cbn [confidence].
  split; [reflexivity |]. split; [apply Q.le_max_l |].
  split.
  - apply Q.max_lub; [discriminate | apply Q.le_min_l].
  - intros extract. eexists. split; reflexivity.
Qed.

(** C9: the velocity trend of [10,10,10,10,20,20,20] is [increasing], that
    of [20,20,20,20,10,10,10] is [decreasing], and a history of fewer than
    two samples is [stable]. *)
Theorem velocity_trend_cases :
  calculateVelocityTrend [10; 10; 10; 10; 20; 20; 20]%Q = increasing /\
  calculateVelocityTrend [20; 20; 20; 20; 10; 10; 10]%Q = decreasing /\
  (forall historical : list Q,
     (length historical < 2)%nat -> calculateVelocityTrend historical = stable).
Proof.
  split; [reflexivity |]. split; [reflexivity |].
  intros historical Hlen. unfold calculateVelocityTrend.
  apply Nat.ltb_lt in Hlen. rewrite Hlen. reflexivity.
Qed.

Lemma velocity_trend_cases_witness :
  calculateVelocityTrend [] = stable /\
  calculateVelocityTrend [(42 # 1)%Q] = stable.
Proof.
  destruct velocity_trend_cases as (_ & _ & H).
  split; apply H; simpl; lia.
Defined.

(** ** Running the model symbolically *)

Ltac exec :=
  repeat progress
    (unfold bind, try_catch, ret, throw, call, start, await, emit, new_date,
       store_set, store_get, updateWorkflowStatus, mark, promise_all,
       assign_service in *;
     cbv beta iota zeta in *; cbn [fst snd trace workflowState dates] in * ).

(** Case analysis on the outcome of the next call of [f] in [H]. *)
Ltac on_call H f :=
  match type of H with
  | context [f ?W ?h ?a ?b ?c] => destruct (f W h a b c) eqn:?
  | context [f ?W ?h ?a ?b] => destruct (f W h a b) eqn:?
  | context [f ?W ?h ?a] => destruct (f W h a) eqn:?
  end; exec.

Lemma events_since_app st st' evs :
  trace st' = trace st ++ evs -> events_since st st' = evs.
Proof. intros H. unfold events_since. rewrite H. apply drop_app_length. Qed.

Lemma dispatches_app a b : dispatches (a ++ b) = dispatches a ++ dispatches b.
Proof. apply omap_app. Qed.

Lemma writes_of_app k a b : writes_of k (a ++ b) = writes_of k a ++ writes_of k b.
Proof. apply omap_app. Qed.

Lemma writes_of_cons k ev evs :
  writes_of k (ev :: evs) =
  match ev with
  | StoreSet k' s =>
      if String.eqb k' k then status s :: writes_of k evs else writes_of k evs
  | _ => writes_of k evs
  end.
Proof.
  destruct ev; try reflexivity.
  unfold writes_of. cbn [omap list_omap]. destruct (String.eqb _ _); reflexivity.
Qed.

(** When exactly one element of a list satisfies [P], a decomposition of
    the list around an element satisfying [P] is the decomposition around
    that one. *)
Lemma split_at_unique {A} (P : A -> bool) (l pre : list A) y post :
  l = pre ++ y :: post -> P y = true ->
  length (List.filter P l) = 1%nat ->
  pre = before P l /\ List.find P l = Some y.
Proof.
  intros -> Hy. revert post.
  induction pre as [| a pre IH]; intros post Hone; cbn.
  - rewrite Hy. auto.
  - cbn in Hone. destruct (P a) eqn:Ha.
    + exfalso. cbn in Hone. rewrite List.filter_app in Hone. cbn in Hone.
      rewrite Hy in Hone. rewrite length_app in Hone. cbn in Hone. lia.
    + destruct (IH post Hone) as [Hpre Hfind]. rewrite <- Hpre. auto.
Qed.

Lemma no_split {A} (P : A -> bool) l pre y post :
  l = pre ++ y :: post -> existsb P l = false -> P y = true -> False.
Proof.
  intros -> H Hy. rewrite existsb_app in H. cbn in H. rewrite Hy in H.
  rewrite orb_true_r in H. discriminate.
Qed.

(** Replace [events_since st st'] by the events the run appended. *)
Ltac since H :=
  match type of H with
  | context [events_since ?st ?st'] =>
      let Hl := fresh "Hl" in
      eassert (Hl : events_since st st' = _)
        by (apply events_since_app; rewrite <- ?app_assoc; reflexivity);
      rewrite Hl in H; clear Hl
  end.

Ltac since_goal :=
  match goal with
  | |- context [events_since ?st ?st'] =>
      let Hl := fresh "Hl" in
      eassert (Hl : events_since st st' = _)
        by (apply events_since_app; rewrite <- ?app_assoc; reflexivity);
      rewrite Hl; clear Hl
  end.

(** The end of a run in which no event satisfies [P]. *)
Ltac leaf_without P Hrun Hev :=
  injection Hrun as <- <-; since Hev; exfalso;
  exact (no_split P _ _ _ _ Hev eq_refl eq_refl).

(** The end of a run in which the call [f] was made once: the call that
    [Hev] finds in the trace is that one, made at the same point. *)
Ltac leaf_with st pre k c P f mk Hrun Hev Hrej :=
  injection Hrun as <- <-; since Hev;
  let Hpre := fresh "Hpre" in
  let Hfind := fresh "Hfind" in
  destruct (split_at_unique P _ _ _ _ Hev eq_refl eq_refl) as [Hpre Hfind];
  match goal with
  | Heq : f ?W ?h ?k0 ?c0 = _ |- _ =>
      lazymatch h with _ ++ pre => fail | _ => idtac end;
      let Hk := fresh "Hk" in
      let Hh := fresh "Hh" in
      assert (Hk : Some (mk k0 c0) = Some _) by exact Hfind;
      assert (Hh : trace st ++ pre = h)
        by (rewrite Hpre; rewrite <- ?app_assoc; reflexivity);
      assert (k0 = k /\ c0 = c) as [<- <-]
        by (injection Hk; intros; split; assumption);
      clear Hk; rewrite Hh in Hrej; rewrite Hrej in Heq;
      first [discriminate Heq | injection Heq as <-]
  end.

(** The end of a run, for [two_phase]. *)
Ltac phases_done :=
  unfold two_phase; cbn [fst snd resolved trace workflowState];
  rewrite ?lookup_insert_eq; since_goal;
  repeat (rewrite ?writes_of_app, ?writes_of_cons; cbv iota;
          rewrite ?String.eqb_refl);
  cbn [status phase_record fmap option_fmap option_map];
  first [left; repeat split; reflexivity | right; repeat split; reflexivity].

(** ** The phases of the three analyses *)

Lemma analyzePR_two_phase W params st :
  two_phase "analyzing" (pr_workflow_id params) st (analyzePR W params st).
Proof.
  unfold analyzePR, getTeamMembers. exec.
  destruct (getPRDetails W _ _ _ _); exec; [| phases_done].
  destruct (getRepositoryStats W _ _ _); exec;
    destruct (analyzePullRequest W _ _); exec; phases_done.
Qed.

Lemma smartTriage_two_phase W params st :
  two_phase "triaging" (triage_workflow_id params) st (smartTriage W params st).
Proof.
  unfold smartTriage, extractGitHubIssueContext, findSimilarIssues,
    getSuggestedSprint.
  exec.
  destruct (getIssue W _ _); exec; [| phases_done].
  destruct (Js.truthy_opt (github_issue_url params)); exec.
  - destruct (negb (Js.truthy_opt (Js.from_end _ 1))); exec;
      [| destruct (negb _ || negb _); exec;
         [| destruct (getIssueDetails W _ _ _ _); exec ] ].
    all: destruct (searchIssues W _ _ _); exec.
    all: destruct (triageIssue W _ _); exec; [| phases_done].
    all: destruct (getIssue W _ _); exec.
    all: destruct (addCommentToIssue W _ _ _); exec; phases_done.
  - destruct (searchIssues W _ _ _); exec.
    all: destruct (triageIssue W _ _); exec; [| phases_done].
    all: destruct (getIssue W _ _); exec.
    all: destruct (addCommentToIssue W _ _ _); exec; phases_done.
Qed.

Lemma orchestrateRelease_two_phase W params st :
  well_formed_repository (repository params) = true ->
  two_phase "analyzing" (release_workflow_id params) st
    (orchestrateRelease W params st).
Proof.
  unfold well_formed_repository. intros [H0 H1]%andb_true_iff.
  unfold orchestrateRelease, executeRelease, getBlockingIssues,
    getTestResults, getDeploymentHistory.
  rewrite H0, H1. cbn [negb orb].
  exec.
  destruct (getRepositoryStats W _ _ _); destruct (getProjectIssueStats W _ _);
    destruct (findChannelByName W _ _) as [[ch|]|];
    cbn [promise_all3 rejection]; exec; try phases_done.
  destruct (searchIssues W _ _ _); exec.
  all: destruct (assessReleaseReadiness W _ _); exec; [| phases_done].
  all: destruct (negb _ && bool_decide _); exec.
  all: try (destruct (createRelease W _ _ _ _); exec; [| phases_done]).
  all: destruct (sendNotification W _ _ _); exec; phases_done.
Qed.

(** ** The sync loop *)

Lemma sync_step_refl u st : sync_step u st u st [].
Proof.
  split; auto. exists []. rewrite app_nil_r. auto.
Qed.

Lemma sync_step_trans u st u1 st1 u2 st2 ps qs :
  sync_step u st u1 st1 ps -> sync_step u1 st1 u2 st2 qs ->
  sync_step u st u2 st2 (ps ++ qs).
Proof.
  intros [] []. split; try congruence; auto.
  destruct step_trace0 as (e1 & T1 & D1 & W1 & C1).
  destruct step_trace1 as (e2 & T2 & D2 & W2 & C2).
  exists (e1 ++ e2). rewrite T2, T1, app_assoc, dispatches_app, D1, D2.
  repeat split; auto.
  - intros k. rewrite writes_of_app, W1, W2. reflexivity.
  - rewrite existsb_app, C1, C2. reflexivity.
Qed.

(** The merge [{ status: update, ...currentService }] keeps the [status]
    of a pointer that has one. *)
Lemma pointer_kept u p su q s :
  pointer_field u q "status" = Some s ->
  pointer_field (with_services u (merged_services su u p)) q "status" = Some s.
Proof.
  unfold pointer_field, merged_services. cbn [services with_services]. intros H.
  destruct (decide (platform_name p = q)) as [<- | Hne].
  - rewrite lookup_insert_eq. cbn.
    destruct (services u !! platform_name p) as [cur |]; [| discriminate].
    cbn in *. apply lookup_union_Some_l. exact H.
  - rewrite lookup_insert_ne by exact Hne. exact H.
Qed.

Section SyncLoop.

Variable W : World.
Variable params : WorkflowStatusParams.

Lemma pushed_step u p st evs :
  dispatches evs = [] -> (forall k, writes_of k evs = []) ->
  existsb is_create_release evs = false ->
  sync_step u st (with_services u (merged_services (status_update params) u p))
    {| workflowState :=
         alter (fun stored => with_services stored (merged_services (status_update params) u p))
           (workflow_id params) (workflowState st);
       trace := (trace st ++ [PlatformSync p]) ++ evs;
       dates := dates st |} [p].
Proof.
  intros D Wr C. split; auto.
  { intros q s. apply pointer_kept. }
  exists (PlatformSync p :: evs). cbn [trace]. rewrite <- app_assoc.
  repeat split; auto.
  unfold dispatches in *. cbn [omap list_omap]. f_equal. exact D.
Qed.

Lemma skipped_step u p st evs :
  dispatches evs = [] -> (forall k, writes_of k evs = []) ->
  existsb is_create_release evs = false ->
  sync_step u st u
    {| workflowState := workflowState st;
       trace := (trace st ++ [PlatformSync p]) ++ evs;
       dates := dates st |} [p].
Proof.
  intros D Wr C. split; auto.
  exists (PlatformSync p :: evs). cbn [trace]. rewrite <- app_assoc.
  repeat split; auto.
  unfold dispatches in *. cbn [omap list_omap]. f_equal. exact D.
Qed.

Ltac step_done :=
  eexists _, _; split; [reflexivity |];
  first [ rewrite <- (app_nil_r (trace _ ++ _));
          (apply pushed_step || apply skipped_step); reflexivity
        | (apply pushed_step || apply skipped_step); reflexivity ].

(** One iteration always resolves: a failed push is caught. *)
Lemma sync_platform_step u p st :
  exists u' st',
    sync_platform W params u p st = (Resolved u', st')
    /\ sync_step u st u' st' [p].
Proof.
  unfold sync_platform, updateStatusOnPlatform. exec.
  destruct p.
  - destruct (Js.truthy_opt _); exec;
      [ destruct (Js.array_includes _ _); exec;
        [ destruct (negb (Js.truthy_opt (Js.from_end _ 1))); exec;
          [| destruct (negb _ || negb _); exec;
             [| destruct (updatePRStatus W _ _ _ _ _ _); exec ] ] |] |].
    all: step_done.
  - destruct (Js.truthy_opt _); exec;
      [ destruct (addCommentToIssue W _ _ _); exec |].
    all: step_done.
  - destruct (Js.truthy_opt _); exec;
      [ destruct (sendNotification W _ _ _); exec |].
    all: step_done.
Qed.

Lemma sync_platforms_step ps : forall u st,
  exists u' st',
    sync_platforms W params u ps st = (Resolved u', st')
    /\ sync_step u st u' st' ps.
Proof.
  induction ps as [| p ps IH]; intros u st.
  - exists u, st. split; [reflexivity | apply sync_step_refl].
  - destruct (sync_platform_step u p st) as (u1 & st1 & E1 & S1).
    destruct (IH u1 st1) as (u2 & st2 & E2 & S2).
    exists u2, st2. split.
    + cbn [sync_platforms]. unfold bind. rewrite E1. exact E2.
    + apply (sync_step_trans _ _ _ _ _ _ [p] ps S1 S2).
Qed.

(** A sync on a known workflow always resolves, with the record that it
    stores. *)
Lemma syncWorkflowStatus_known st existing :
  workflowState st !! workflow_id params = Some existing ->
  exists u st',
    syncWorkflowStatus W params st = (Resolved u, st')
    /\ workflowState st' !! workflow_id params = Some u
    /\ status u = status_update params
    /\ id u = id existing /\ type u = type existing
    /\ (forall q s, pointer_field existing q "status" = Some s ->
                    pointer_field u q "status" = Some s)
    /\ dispatches (events_since st st')
       = Js.or_list (platforms params) [github; jira; slack]
    /\ existsb is_create_release (events_since st st') = false.
Proof.
  intros Hget. unfold syncWorkflowStatus. exec. rewrite Hget.
  set (u0 := {| id := id existing; type := type existing;
                status := status_update params;
                lastUpdated := now W (dates st);
                services := services existing |}).
  set (st0 := {| workflowState := workflowState st; trace := trace st;
                 dates := S (dates st) |}).
  destruct (sync_platforms_step
              (Js.or_list (platforms params) [github; jira; slack]) u0 st0)
    as (u & st1 & E & [Hid Hty Hst Hptr Hd (evs & Ht & Hdis & Hwr & Hcr)]).
  rewrite E. eexists _, _. split; [reflexivity |].
  cbn [workflowState]. rewrite lookup_insert_eq.
  assert (Hev : events_since st
                  {| workflowState := <[workflow_id params := u]> (workflowState st1);
                     trace := trace st1 ++ [StoreSet (workflow_id params) u];
                     dates := dates st1 |}
                = evs ++ [StoreSet (workflow_id params) u]).
  { apply events_since_app. cbn [trace]. rewrite Ht. cbn [trace st0].
    symmetry. apply app_assoc. }
  rewrite Hev. repeat split; auto.
  - rewrite dispatches_app, Hdis. apply app_nil_r.
  - rewrite existsb_app, Hcr. reflexivity.
Qed.

End SyncLoop.

Lemma analyzePR_resolved_record W params st res st1 :
  analyzePR W params st = (Resolved res, st1) ->
  exists existing,
    workflowState st1 !! pr_workflow_id params = Some existing
    /\ status existing = "completed"
    /\ pointer_field existing "github" "status" = Some "analyzed".
Proof.
  unfold analyzePR, getTeamMembers. exec.
  destruct (getPRDetails W _ _ _ _); exec; [| discriminate].
  destruct (getRepositoryStats W _ _ _); exec;
    (destruct (analyzePullRequest W _ _); exec; [| discriminate]).
  all: intros [= _ <-]; cbn [workflowState]; rewrite lookup_insert_eq.
  all: eexists; split; [reflexivity |]; split; [reflexivity |].
  all: unfold pointer_field; cbn [services phase_record].
  all: rewrite lookup_singleton_eq; cbn [mbind option_bind].
  all: apply lookup_insert_eq.
Qed.

(** ** Properties of the operations *)

(** C1 (what the code does): once [analyzePR] has stored its record, a
    [syncWorkflowStatus] on that workflow id, for any list of platforms and
    whether or not the pushes succeed, resolves and stores a record whose
    top-level [status] is the update but whose [services.github.status] is
    still ["analyzed"]: in the merge the stored pointer is spread last and
    its [status] wins over the update. *)
Theorem sync_keeps_github_status W prp st res st1 upd ps :
  analyzePR W prp st = (Resolved res, st1) ->
  exists stored st2,
    syncWorkflowStatus W
      {| workflow_id := pr_workflow_id prp; status_update := upd;
         platforms := ps |} st1
    = (Resolved stored, st2)
    /\ workflowState st2 !! pr_workflow_id prp = Some stored
    /\ status stored = upd
    /\ pointer_field stored "github" "status" = Some "analyzed".
Proof.
  intros Hrun.
  destruct (analyzePR_resolved_record _ _ _ _ _ Hrun)
    as (existing & Hex & _ & Hptr).
  destruct (syncWorkflowStatus_known W
              {| workflow_id := pr_workflow_id prp; status_update := upd;
                 platforms := ps |} st1 existing Hex)
    as (u & st2 & E & Hst & Hs & _ & _ & Hkeep & _).
  exists u, st2. repeat split; auto.
Qed.

Lemma sync_keeps_github_status_witness :
  let W := mock_world false false (Some releases_channel) 85 in
  let run := analyzePR W pr_o_r_1 init in
  resolved (fst run) = true
  /\ exists stored st2,
       syncWorkflowStatus W (sync_in_review (Some [github])) (snd run)
       = (Resolved stored, st2)
       /\ workflowState st2 !! "pr-o-r-1" = Some stored
       /\ status stored = "in-review"
       /\ pointer_field stored "github" "status" = Some "analyzed".
Proof.
  intros W run. split; [vm_compute; reflexivity |].
  destruct run as [[res | e] st1] eqn:Hrun.
  - exact (sync_keeps_github_status W pr_o_r_1 init res st1 "in-review"
             (Some [github]) Hrun).
  - exfalso. vm_compute in Hrun. discriminate Hrun.
Defined.

(** The run of the test-suite's scenario: the GitHub push is made and
    resolves, and the stored pointer keeps ["analyzed"]. *)
Example sync_in_review_run :
  let W := mock_world false false (Some releases_channel) 85 in
  let st1 := snd (analyzePR W pr_o_r_1 init) in
  let run := syncWorkflowStatus W (sync_in_review (Some [github])) st1 in
  resolved (fst run) = true
  /\ (exists stored,
        take 2 (events_since st1 (snd run))
        = [PlatformSync github;
           UpdatePRStatus "o" "r" (Some 1) "pending" "IDWO: in-review"]
        /\ workflowState (snd run) !! "pr-o-r-1" = Some stored
        /\ status stored = "in-review"
        /\ pointer_field stored "github" "status" = Some "analyzed"
        /\ pointer_field stored "github" "status" <> Some "in-review").
Proof.
  cbv zeta. split; [vm_compute; reflexivity |].
  eexists. split; [vm_compute; reflexivity |].
  split; [vm_compute; reflexivity |].
  split; [vm_compute; reflexivity |].
  split; [vm_compute; reflexivity |].
  vm_compute. discriminate.
Qed.

(** C2 as stated fails: with the tracker fetch, the LLM analysis and the
    extraction succeeding and only the audit-comment write rejecting,
    [smartTriage] rejects with the write's error and the stored status is
    ["failed"], not ["completed"]. *)
Lemma smartTriage_comment_swallowed_counterexample :
  let W := mock_world false true None 85 in
  let run := smartTriage W triage_PROJ_789 init in
  (forall h k, getIssue W h k = Resolved mock_issue)
  /\ (forall h ctx, triageIssue W h ctx = Resolved (mock_analysis 85))
  /\ (forall h k c, addCommentToIssue W h k c = Rejected (unavailable SvcJira))
  /\ fst run = Rejected (unavailable SvcJira)
  /\ status <$> workflowState (snd run) !! "triage-PROJ-789" = Some "failed"
  /\ ~ (resolved (fst run) = true
        /\ status <$> workflowState (snd run) !! "triage-PROJ-789"
           = Some "completed").
Proof.
  cbv zeta.
  split; [reflexivity |]. split; [reflexivity |]. split; [reflexivity |].
  split; [vm_compute; reflexivity |]. split; [vm_compute; reflexivity |].
  intros [H _]. vm_compute in H. discriminate H.
Qed.

(** C2, amended: when a run of [smartTriage] reaches the audit-comment
    write and the tracker rejects it with [e], the operation rejects with
    [e] unchanged and the stored workflow status is ["failed"]; the comment
    is the one on the triaged issue. *)
Theorem smartTriage_comment_failure W params st out st' pre post k c e :
  smartTriage W params st = (out, st') ->
  events_since st st' = pre ++ AddCommentToIssue k c :: post ->
  addCommentToIssue W (trace st ++ pre) k c = Rejected e ->
  out = Rejected e
  /\ status <$> workflowState st' !! triage_workflow_id params = Some "failed"
  /\ k = issue_key params.
Proof.
  intros Hrun Hev Hrej.
  unfold smartTriage, extractGitHubIssueContext, findSimilarIssues,
    getSuggestedSprint in Hrun.
  exec.
  on_call Hrun getIssue; [| leaf_without is_comment Hrun Hev].
  destruct (Js.truthy_opt (github_issue_url params)); exec.
  - destruct (negb (Js.truthy_opt (Js.from_end _ 1))); exec;
      [| destruct (negb _ || negb _); exec; [| on_call Hrun getIssueDetails ] ].
    all: on_call Hrun searchIssues.
    all: on_call Hrun triageIssue; [| leaf_without is_comment Hrun Hev].
    all: on_call Hrun getIssue.
    all: on_call Hrun addCommentToIssue.
    all: leaf_with st pre k c is_comment addCommentToIssue AddCommentToIssue
           Hrun Hev Hrej.
    all: cbn [workflowState]; rewrite lookup_insert_eq; auto.
  - on_call Hrun searchIssues.
    all: on_call Hrun triageIssue; [| leaf_without is_comment Hrun Hev].
    all: on_call Hrun getIssue.
    all: on_call Hrun addCommentToIssue.
    all: leaf_with st pre k c is_comment addCommentToIssue AddCommentToIssue
           Hrun Hev Hrej.
    all: cbn [workflowState]; rewrite lookup_insert_eq; auto.
Qed.

Lemma smartTriage_comment_failure_witness :
  let W := mock_world false true None 85 in
  let run := smartTriage W triage_PROJ_789 init in
  let evs := events_since init (snd run) in
  evs = take 5 evs ++ AddCommentToIssue "PROJ-789" mock_comment :: drop 6 evs
  /\ fst run = Rejected (unavailable SvcJira)
  /\ status <$> workflowState (snd run) !! "triage-PROJ-789" = Some "failed"
  /\ "PROJ-789" = "PROJ-789".
Proof.
  intros W run evs. split; [vm_compute; reflexivity |].
  apply (smartTriage_comment_failure W triage_PROJ_789 init (fst run) (snd run)
           (take 5 evs) (drop 6 evs) "PROJ-789" mock_comment
           (unavailable SvcJira)).
  - apply surjective_pairing.
  - vm_compute. reflexivity.
  - reflexivity.
Defined.

(** C3 as stated fails: the first record that [smartTriage] writes has
    status ["triaging"], not ["analyzing"]. *)
Lemma smartTriage_first_write_counterexample :
  let W := mock_world false false None 85 in
  let run := smartTriage W triage_PROJ_789 init in
  writes_of "triage-PROJ-789" (events_since init (snd run))
  = ["triaging"; "completed"]
  /\ head (writes_of "triage-PROJ-789" (events_since init (snd run)))
     <> Some "analyzing"
  /\ ~ two_phase "analyzing" (triage_workflow_id triage_PROJ_789) init run.
Proof.
  cbv zeta.
  assert (H : writes_of "triage-PROJ-789"
                (events_since init
                   (snd (smartTriage (mock_world false false None 85)
                           triage_PROJ_789 init)))
              = ["triaging"; "completed"]) by (vm_compute; reflexivity).
  split; [exact H |]. split.
  - rewrite H. discriminate.
  - unfold two_phase. cbv zeta.
    change (triage_workflow_id triage_PROJ_789) with "triage-PROJ-789".
    rewrite H. intros [(_ & Hw & _) | (_ & Hw & _)]; discriminate Hw.
Qed.

(** C3, amended: [analyzePR] and [orchestrateRelease] (on a well-formed
    repository) first write ["analyzing"], [smartTriage] first writes
    ["triaging"]; each then makes exactly one more write to its workflow
    id, ["completed"] when it resolves and ["failed"] when it rejects, and
    that is the status the map ends with. *)
Theorem workflow_phases W st :
  (forall params,
     two_phase "analyzing" (pr_workflow_id params) st (analyzePR W params st))
  /\ (forall params,
        well_formed_repository (repository params) = true ->
        two_phase "analyzing" (release_workflow_id params) st
          (orchestrateRelease W params st))
  /\ (forall params,
        two_phase "triaging" (triage_workflow_id params) st
          (smartTriage W params st)).
Proof.
  split; [| split].
  - intros params. apply analyzePR_two_phase.
  - intros params. apply orchestrateRelease_two_phase.
  - intros params. apply smartTriage_two_phase.
Qed.

Lemma workflow_phases_witness :
  well_formed_repository (repository release_v1) = true
  /\ two_phase "analyzing" (release_workflow_id release_v1) init
       (orchestrateRelease (mock_world false false (Some releases_channel) 85)
          release_v1 init).
Proof.
  split; [reflexivity |].
  destruct (workflow_phases (mock_world false false (Some releases_channel) 85)
              init) as (_ & H & _).
  apply H. reflexivity.
Defined.

(** C6: [syncWorkflowStatus] on a workflow id that the map does not hold
    rejects with the error [Workflow <id> not found] and leaves the whole
    state as it was: no push, no dispatch, no write to the map. *)
Theorem sync_unknown_workflow W params st :
  workflowState st !! workflow_id params = None ->
  syncWorkflowStatus W params st
  = (Rejected (Error ("Workflow " +:+ workflow_id params +:+ " not found")), st).
Proof.
  intros H. unfold syncWorkflowStatus. exec. rewrite H. reflexivity.
Qed.

Lemma sync_unknown_workflow_witness :
  workflowState init !! workflow_id (sync_in_review None) = None
  /\ syncWorkflowStatus (mock_world false false None 85) (sync_in_review None)
       init
     = (Rejected (Error "Workflow pr-o-r-1 not found"), init).
Proof.
  split; [reflexivity |].
  apply (sync_unknown_workflow (mock_world false false None 85)
           (sync_in_review None) init).
  reflexivity.
Defined.

(** C7 as stated fails: the channel lookup resolves to no channel, but the
    repository-stats read issued in parallel rejects, and the operation
    rejects with that read's error, whose message does not name the
    channel. *)
Lemma missing_channel_error_counterexample :
  let W := mock_world true false None 85 in
  let run := orchestrateRelease W release_v1 init in
  well_formed_repository (repository release_v1) = true
  /\ (forall h name, findChannelByName W h name = Resolved None)
  /\ fst run = Rejected (unavailable SvcGithub)
  /\ fst run <> Rejected (Error "Slack channel #nonexistent not found")
  /\ (forall e, fst run = Rejected e ->
                Js.includes (message_of e) (slack_channel release_v1) = false).
Proof.
  cbv zeta.
  assert (H : fst (orchestrateRelease (mock_world true false None 85)
                     release_v1 init)
              = Rejected (unavailable SvcGithub)) by (vm_compute; reflexivity).
  split; [reflexivity |]. split; [reflexivity |]. split; [exact H |].
  rewrite H. split; [discriminate |].
  intros e [= <-]. reflexivity.
Qed.

(** C7, amended: when the channel lookup of an [orchestrateRelease] call
    (on a well-formed repository) resolves to no channel, the operation
    rejects, marks the workflow ["failed"] and never invokes the
    release-creation write; when moreover the two reads issued in parallel
    with the lookup resolve, the error is
    [Slack channel <name> not found]. *)
Theorem orchestrateRelease_missing_channel W params st :
  well_formed_repository (repository params) = true ->
  let o := default "" (Js.split "/" (repository params) !! 0%nat) in
  let r := default "" (Js.split "/" (repository params) !! 1%nat) in
  let wid := release_workflow_id params in
  let h1 :=
    trace st
    ++ [StoreSet wid
          (phase_record wid release "analyzing" (now W (dates st)) ∅)] in
  let h2 := h1 ++ [GetRepositoryStats o r] in
  let h3 := h2 ++ [GetProjectIssueStats (jira_project params)] in
  findChannelByName W h3 (slack_channel params) = Resolved None ->
  let run := orchestrateRelease W params st in
  resolved (fst run) = false
  /\ existsb is_create_release (events_since st (snd run)) = false
  /\ status <$> workflowState (snd run) !! wid = Some "failed"
  /\ (resolved (getRepositoryStats W h1 o r) = true ->
      resolved (getProjectIssueStats W h2 (jira_project params)) = true ->
      fst run
      = Rejected (Error ("Slack channel " +:+ slack_channel params
                         +:+ " not found"))).
Proof.
  unfold well_formed_repository. intros [H0 H1]%andb_true_iff.
  intros Hnone.
  unfold orchestrateRelease. rewrite H0, H1. cbn [negb orb]. exec.
  match goal with
  | |- context [getRepositoryStats W ?h ?a ?b] =>
      destruct (getRepositoryStats W h a b) eqn:E1
  end;
  match goal with
  | |- context [getProjectIssueStats W ?h ?a] =>
      destruct (getProjectIssueStats W h a) eqn:E2
  end;
  match goal with
  | |- context [findChannelByName W ?h ?a] =>
      destruct (findChannelByName W h a) as [[ch |] |] eqn:E3
  end;
  try discriminate Hnone;
  try (pose proof (eq_trans (eq_sym Hnone) E3) as Habs; discriminate Habs).
  all: cbn [promise_all3 rejection]; exec.
  all: cbn [fst snd resolved workflowState]; rewrite lookup_insert_eq.
  all: split; [reflexivity |]; split; [since_goal; reflexivity |].
  all: split; [reflexivity |].
  all: intros R1 R2; try discriminate R1; try discriminate R2.
  all: try (pose proof (eq_trans (eq_sym (f_equal resolved E1)) R1) as Habs;
            discriminate Habs).
  all: try (pose proof (eq_trans (eq_sym (f_equal resolved E2)) R2) as Habs;
            discriminate Habs).
  reflexivity.
Qed.

Lemma orchestrateRelease_missing_channel_witness :
  let W := mock_world false false None 85 in
  let run := orchestrateRelease W release_v1 init in
  well_formed_repository (repository release_v1) = true
  /\ resolved (fst run) = false
  /\ existsb is_create_release (events_since init (snd run)) = false
  /\ status <$> workflowState (snd run) !! "release-v1.0.0" = Some "failed"
  /\ fst run = Rejected (Error "Slack channel #nonexistent not found").
Proof.
  intros W run. split; [reflexivity |].
  destruct (orchestrateRelease_missing_channel W release_v1 init eq_refl eq_refl)
    as (Hr & Hc & Hs & He).
  split; [exact Hr |]. split; [exact Hc |]. split; [exact Hs |].
  apply He; reflexivity.
Defined.



(** ** The pushes of the sync loop *)

Lemma same_pointers_refl u : same_pointers u u.
Proof. repeat split. Qed.

Lemma same_pointers_trans u1 u2 u3 :
  same_pointers u1 u2 -> same_pointers u2 u3 -> same_pointers u1 u3.
Proof.
  intros (Hi & Ht & Hp) (Hi' & Ht' & Hp'). split; [congruence |].
  split; [congruence |]. intros q f Hf. rewrite Hp', Hp by exact Hf. reflexivity.
Qed.

Lemma platform_push_same p u u' upd :
  same_pointers u u' -> platform_push p u' upd = platform_push p u upd.
Proof.
  intros (Hi & Ht & Hp). unfold platform_push.
  destruct p; rewrite ?Hp by discriminate; rewrite ?Hi, ?Ht; reflexivity.
Qed.

(** The merge of the loop changes no pointer field other than [status]. *)
Lemma merged_same_pointers upd u p :
  same_pointers u (with_services u (merged_services upd u p)).
Proof.
  split; [reflexivity |]. split; [reflexivity |].
  intros q f Hf. unfold pointer_field, merged_services.
  cbn [services with_services].
  destruct (decide (platform_name p = q)) as [<- | Hne].
  - rewrite lookup_insert_eq. cbn [mbind option_bind].
    destruct (services u !! platform_name p) as [cur |];
      cbn [from_option mbind option_bind]; unfold Datatypes.id.
    + destruct (cur !! f) as [v |] eqn:Hv.
      * apply lookup_union_Some_l. exact Hv.
      * apply lookup_union_None. split; [exact Hv |].
        apply lookup_singleton_ne. congruence.
    + rewrite (left_id_L ∅ (∪)). apply lookup_singleton_ne. congruence.
  - rewrite lookup_insert_ne by exact Hne. reflexivity.
Qed.

Section SyncPushes.

Variable W : World.
Variable params : WorkflowStatusParams.

Ltac turn_done u p :=
  eexists _, _; split; [reflexivity |];
  split; [first [apply same_pointers_refl
                | apply (merged_same_pointers (status_update params) u p)] |];
  cbn [trace option_list]; rewrite <- ?app_assoc; reflexivity.

(** One turn of the loop resolves whatever the adapter answers, adds the
    dispatch and the platform's push to the trace, and keeps what the
    later pushes read. *)
Lemma sync_platform_pushes u p st :
  exists u' st',
    sync_platform W params u p st = (Resolved u', st')
    /\ same_pointers u u'
    /\ trace st' = trace st ++ platform_events p u (status_update params).
Proof.
  unfold sync_platform, updateStatusOnPlatform, platform_events, platform_push.
  exec.
  destruct p.
  - destruct (Js.truthy_opt _); exec;
      [ destruct (Js.array_includes _ _); exec;
        [ destruct (negb (Js.truthy_opt (Js.from_end _ 1))); exec;
          [| destruct (negb _ || negb _); exec;
             [| destruct (updatePRStatus W _ _ _ _ _ _); exec ] ] |] |].
    all: turn_done u github.
  - destruct (Js.truthy_opt _); exec;
      [ destruct (addCommentToIssue W _ _ _); exec |].
    all: turn_done u jira.
  - destruct (Js.truthy_opt _); exec;
      [ destruct (sendNotification W _ _ _); exec |].
    all: turn_done u slack.
Qed.

Lemma sync_platforms_pushes ps : forall u st,
  exists u' st',
    sync_platforms W params u ps st = (Resolved u', st')
    /\ same_pointers u u'
    /\ trace st'
       = trace st
         ++ concat (map (fun p => platform_events p u (status_update params)) ps).
Proof.
  induction ps as [| p ps IH]; intros u st.
  - exists u, st. split; [reflexivity |]. split; [apply same_pointers_refl |].
    cbn [map concat]. rewrite app_nil_r. reflexivity.
  - destruct (sync_platform_pushes u p st) as (u1 & st1 & E1 & S1 & T1).
    destruct (IH u1 st1) as (u2 & st2 & E2 & S2 & T2).
    exists u2, st2. split; [| split].
    + cbn [sync_platforms]. unfold bind. rewrite E1. exact E2.
    + exact (same_pointers_trans _ _ _ S1 S2).
    + rewrite T2, T1. cbn [map concat]. rewrite <- app_assoc.
      f_equal. f_equal. f_equal.
      apply map_ext. intros q. unfold platform_events.
      rewrite (platform_push_same q u u1 _ S1). reflexivity.
Qed.

End SyncPushes.

(** C10 as stated fails: on the record that [analyzePR] has stored, which
    holds a GitHub pointer only, a sync with [platforms] omitted resolves
    after the one push that the record allows, the PR status update; the
    turns of [jira] and [slack] attempt nothing: no tracker comment and no
    chat notification is issued. *)
Lemma sync_default_platforms_counterexample :
  let W := mock_world false false (Some releases_channel) 85 in
  let st1 := snd (analyzePR W pr_o_r_1 init) in
  let run := syncWorkflowStatus W (sync_in_review None) st1 in
  platforms (sync_in_review None) = None
  /\ is_Some (workflowState st1 !! workflow_id (sync_in_review None))
  /\ resolved (fst run) = true
  /\ (exists stored,
        events_since st1 (snd run)
        = [PlatformSync github;
           UpdatePRStatus "o" "r" (Some 1) "pending" "IDWO: in-review";
           PlatformSync jira; PlatformSync slack;
           StoreSet "pr-o-r-1" stored])
  /\ (forall k c, AddCommentToIssue k c ∉ events_since st1 (snd run))
  /\ (forall ch n, SendNotification ch n ∉ events_since st1 (snd run)).
Proof.
  cbv zeta.
  assert (Hev : exists stored,
            events_since
              (snd (analyzePR (mock_world false false (Some releases_channel) 85)
                      pr_o_r_1 init))
              (snd (syncWorkflowStatus
                      (mock_world false false (Some releases_channel) 85)
                      (sync_in_review None)
                      (snd (analyzePR
                              (mock_world false false (Some releases_channel) 85)
                              pr_o_r_1 init))))
            = [PlatformSync github;
               UpdatePRStatus "o" "r" (Some 1) "pending" "IDWO: in-review";
               PlatformSync jira; PlatformSync slack;
               StoreSet "pr-o-r-1" stored]).
  { vm_compute. eexists. reflexivity. }
  split; [reflexivity |].
  split; [vm_compute; eexists; reflexivity |].
  split; [vm_compute; reflexivity |].
  split; [exact Hev |].
  destruct Hev as (stored & ->).
  split; intros ? ? H;
    repeat (apply elem_of_cons in H as [H | H]; [discriminate H |]);
    apply elem_of_nil in H; exact H.
Qed.

(** C10, amended: on a known workflow id and with [platforms] omitted,
    [syncWorkflowStatus] resolves after the turns of [github], [jira] and
    [slack], in that order, as in the call that names the three platforms.
    A turn pushes only what the stored record points to: the trace is, per
    platform, the dispatch followed by the push of [platform_push] on the
    stored record, whatever the earlier turns did and whether or not their
    pushes were rejected.  A platform whose pointer (the GitHub [url], the
    Jira [key], the Slack [channel]) is missing or empty gets no call; a
    Jira key gets the status comment and a Slack channel the status
    notification. *)
Theorem sync_default_platforms W params st existing :
  platforms params = None ->
  workflowState st !! workflow_id params = Some existing ->
  let upd := status_update params in
  (exists u st',
     syncWorkflowStatus W params st = (Resolved u, st')
     /\ events_since st st'
        = platform_events github existing upd
          ++ platform_events jira existing upd
          ++ platform_events slack existing upd
          ++ [StoreSet (workflow_id params) u])
  /\ syncWorkflowStatus W params st
     = syncWorkflowStatus W
         {| workflow_id := workflow_id params; status_update := upd;
            platforms := Some [github; jira; slack] |} st
  /\ (Js.truthy_opt (pointer_field existing "github" "url") = false ->
      platform_events github existing upd = [PlatformSync github])
  /\ (Js.truthy_opt (pointer_field existing "jira" "key") = false ->
      platform_events jira existing upd = [PlatformSync jira])
  /\ (Js.truthy_opt (pointer_field existing "slack" "channel") = false ->
      platform_events slack existing upd = [PlatformSync slack])
  /\ (forall k,
        pointer_field existing "jira" "key" = Some k -> Js.truthy k = true ->
        platform_events jira existing upd
        = [PlatformSync jira;
           AddCommentToIssue k ("🤖 IDWO Status Update: " +:+ upd)])
  /\ (forall ch,
        pointer_field existing "slack" "channel" = Some ch ->
        Js.truthy ch = true ->
        exists n,
          platform_events slack existing upd
          = [PlatformSync slack; SendNotification ch n]
          /\ n_message n
             = Js.toUpperCase (type_name (type existing)) +:+ " "
               +:+ id existing +:+ ": " +:+ upd).
Proof.
  intros Hnone Hget upd. subst upd. split; [| split].
  - unfold syncWorkflowStatus. exec. rewrite Hget, Hnone. cbn [Js.or_list].
    set (u0 := {| id := id existing; type := type existing;
                  status := status_update params;
                  lastUpdated := now W (dates st);
                  services := services existing |}).
    set (st0 := {| workflowState := workflowState st; trace := trace st;
                   dates := S (dates st) |}).
    destruct (sync_platforms_pushes W params [github; jira; slack] u0 st0)
      as (u & st1 & E & _ & T).
    rewrite E. eexists _, _. split; [reflexivity |].
    apply events_since_app. cbn [trace]. rewrite T. cbn [trace st0 map concat].
    assert (Hsame : same_pointers existing u0) by (repeat split).
    unfold platform_events.
    rewrite !(platform_push_same _ existing u0 _ Hsame).
    rewrite app_nil_r, <- !app_assoc. reflexivity.
  - destruct params as [wid upd ps]. cbn in Hnone. subst ps. reflexivity.
  - unfold platform_events, platform_push.
    split; [intros ->; reflexivity |]. split; [intros ->; reflexivity |].
    split; [intros ->; reflexivity |]. split.
    + intros k -> Hk. cbn [Js.truthy_opt from_option]. rewrite Hk. reflexivity.
    + intros ch -> Hch. cbn [Js.truthy_opt from_option]. rewrite Hch.
      eexists. split; reflexivity.
Qed.

Lemma sync_default_platforms_witness :
  let W := mock_world false false (Some releases_channel) 85 in
  let st1 := snd (analyzePR W pr_o_r_1 init) in
  platforms (sync_in_review None) = None
  /\ exists existing,
       workflowState st1 !! workflow_id (sync_in_review None) = Some existing
       /\ exists u st',
            syncWorkflowStatus W (sync_in_review None) st1 = (Resolved u, st')
            /\ events_since st1 st'
               = platform_events github existing "in-review"
                 ++ platform_events jira existing "in-review"
                 ++ platform_events slack existing "in-review"
                 ++ [StoreSet "pr-o-r-1" u].
Proof.
  intros W st1. split; [reflexivity |].
  destruct (workflowState st1 !! workflow_id (sync_in_review None))
    as [existing |] eqn:Hget.
  - exists existing. split; [reflexivity |].
    exact (proj1 (sync_default_platforms W (sync_in_review None) st1 existing
                    eq_refl Hget)).
  - exfalso. vm_compute in Hget. discriminate Hget.
Defined.

(** ** Further properties of the code *)

(** *** Strings: splitting, matching, number round trip *)

Lemma split_no_sep sep s : has_char sep s = false -> Js.split sep s = [s].
Proof.
  induction s as [| d r IH]; cbn -[Ascii.eqb]; [reflexivity |].
  intros [Hd Hr]%orb_false_iff. rewrite Hd, (IH Hr). reflexivity.
Qed.

Lemma split_app sep a b :
  has_char sep a = false ->
  Js.split sep (a +:+ String sep b) = a :: Js.split sep b.
Proof.
  induction a as [| d r IH].
  - intros _. change (Js.split sep (String sep b) = "" :: Js.split sep b).
    cbn -[Ascii.eqb]. rewrite Ascii.eqb_refl. reflexivity.
  - intros [Hd Hr]%orb_false_iff.
    change (Js.split sep (String d (r +:+ String sep b))
            = String d r :: Js.split sep b).
    cbn -[Ascii.eqb]. rewrite Hd, (IH Hr). reflexivity.
Qed.

Lemma split_sep_end sep s :
  has_char sep s = false -> Js.split sep (s +:+ String sep "") = [s; ""].
Proof.
  intros H. rewrite (split_app sep s "" H). reflexivity.
Qed.

Lemma truthy_nonempty s : s <> "" -> Js.truthy s = true.
Proof.
  intros H. unfold Js.truthy. destruct (String.eqb s "") eqn:E; [| reflexivity].
  apply String.eqb_eq in E. contradiction.
Qed.

Lemma dec_digit_pretty d :
  (d < 10)%N -> Js.dec_digit (pretty_N_char d) = Some (Z.of_N d)
                /\ Js.is_digit (pretty_N_char d) = true.
Proof.
  intros H.
  assert (d = 0 \/ d = 1 \/ d = 2 \/ d = 3 \/ d = 4 \/ d = 5 \/ d = 6
          \/ d = 7 \/ d = 8 \/ d = 9)%N as Hd by lia.
  repeat (destruct Hd as [-> | Hd]; [split; reflexivity |]).
  subst. split; reflexivity.
Qed.

Lemma pretty_go_digits x : forall s,
  all_chars Js.is_digit s = true ->
  all_chars Js.is_digit (pretty_N_go x s) = true.
Proof.
  induction (N.lt_wf_0 x) as [x _ IH]; intros s Hs.
  destruct (decide (x = 0)%N) as [-> | Hx]; [exact Hs |].
  rewrite pretty_N_go_step by lia. apply IH.
  - apply N.div_lt; lia.
  - cbn [all_chars]. rewrite Hs.
    destruct (dec_digit_pretty (x `mod` 10)%N) as [_ ->]; [| reflexivity].
    apply N.mod_lt. discriminate.
Qed.

Lemma digits_pretty_go x : forall s,
  Js.digits 10 Js.dec_digit (pretty_N_go x s) None
  = Js.digits 10 Js.dec_digit s
      (if decide (x = 0)%N then None else Some (Z.of_N x)).
Proof.
  induction (N.lt_wf_0 x) as [x _ IH]; intros s.
  destruct (decide (x = 0)%N) as [-> | Hx]; [reflexivity |].
  rewrite pretty_N_go_step by lia.
  rewrite IH by (apply N.div_lt; lia).
  cbn [Js.digits].
  destruct (dec_digit_pretty (x `mod` 10)%N) as [-> _].
  { apply N.mod_lt. discriminate. }
  f_equal. f_equal.
  destruct (decide (x `div` 10 = 0)%N) as [H0 | H0]; cbn [from_option];
    unfold Datatypes.id.
  - pose proof (N.div_mod x 10 ltac:(discriminate)). lia.
  - pose proof (N.div_mod x 10 ltac:(discriminate)). lia.
Qed.

Lemma digit_chars c :
  Js.is_digit c = true ->
  c = "0"%char \/ c = "1"%char \/ c = "2"%char \/ c = "3"%char
  \/ c = "4"%char \/ c = "5"%char \/ c = "6"%char \/ c = "7"%char
  \/ c = "8"%char \/ c = "9"%char.
Proof.
  destruct c as [[] [] [] [] [] [] [] []]; cbn; intros H;
    try discriminate H; tauto.
Qed.

Lemma parse_digit_string s :
  all_chars Js.is_digit s = true ->
  Js.parseInt s = Js.digits 10 Js.dec_digit s None.
Proof.
  destruct s as [| c r]; [reflexivity |].
  cbn [all_chars]. intros [Hc Hr]%andb_true_iff.
  destruct r as [| c2 r].
  - apply digit_chars in Hc.
    repeat (destruct Hc as [-> | Hc]; [reflexivity |]). subst. reflexivity.
  - cbn [all_chars] in Hr. apply andb_true_iff in Hr as [Hc2 _].
    apply digit_chars in Hc. apply digit_chars in Hc2.
    repeat (destruct Hc as [-> | Hc];
            [repeat (destruct Hc2 as [-> | Hc2]; [reflexivity |]);
             subst; reflexivity |]).
    subst. repeat (destruct Hc2 as [-> | Hc2]; [reflexivity |]).
    subst; reflexivity.
Qed.

(** [parseInt(String(n))] is [n]. *)
Lemma parseInt_of_int n : Js.parseInt (Js.of_int n) = Some n.
Proof.
  assert (Hpos : forall p,
    Js.parseInt (pretty_N_go (N.pos p) "") = Some (Z.pos p)).
  { intros p. rewrite parse_digit_string by (apply pretty_go_digits; reflexivity).
    rewrite digits_pretty_go. reflexivity. }
  destruct n as [| p | p].
  - reflexivity.
  - apply Hpos.
  - unfold Js.of_int, pretty, pretty_Z, pretty, pretty_positive, pretty, pretty_N.
    destruct (decide (N.pos p = 0%N)); [discriminate |].
    change (Js.parseInt (String "-" (pretty_N_go (N.pos p) "")) = Some (Z.neg p)).
    specialize (Hpos p).
    rewrite parse_digit_string in Hpos by (apply pretty_go_digits; reflexivity).
    unfold Js.parseInt. cbn [Js.drop_space Js.is_space].
    change (Z.opp <$> Js.unsigned_int (pretty_N_go (N.pos p) "") = Some (Z.neg p)).
    assert (Hu : Js.unsigned_int (pretty_N_go (N.pos p) "")
                 = Js.digits 10 Js.dec_digit (pretty_N_go (N.pos p) "") None).
    { pose proof (pretty_go_digits (N.pos p) "" eq_refl) as Hd.
      pose proof (parse_digit_string _ Hd) as Hp.
      destruct (pretty_N_go (N.pos p) "") as [| c r]; [reflexivity |].
      cbn [all_chars] in Hd. apply andb_true_iff in Hd as [Hc _].
      rewrite <- Hp. apply digit_chars in Hc.
      repeat (destruct Hc as [-> | Hc]; [reflexivity |]). subst. reflexivity. }
    rewrite Hu, Hpos. reflexivity.
Qed.

Lemma digits_no_slash s :
  all_chars Js.is_digit s = true -> has_char "/" s = false.
Proof.
  induction s as [| c r IH]; [reflexivity |].
  cbn [all_chars has_char]. intros [Hc Hr]%andb_true_iff.
  rewrite (IH Hr), orb_false_r.
  apply digit_chars in Hc.
  repeat (destruct Hc as [-> | Hc]; [reflexivity |]). subst. reflexivity.
Qed.

Lemma of_int_no_slash n : has_char "/" (Js.of_int n) = false.
Proof.
  destruct n as [| p | p]; [reflexivity | |].
  - apply digits_no_slash.
    unfold Js.of_int, pretty, pretty_Z, pretty, pretty_positive, pretty, pretty_N.
    destruct (decide (N.pos p = 0%N)); [discriminate |].
    apply pretty_go_digits. reflexivity.
  - unfold Js.of_int, pretty, pretty_Z, pretty, pretty_positive, pretty, pretty_N.
    destruct (decide (N.pos p = 0%N)); [discriminate |].
    change (has_char "/" (String "-" (pretty_N_go (N.pos p) "")) = false).
    cbn [has_char]. apply digits_no_slash, pretty_go_digits. reflexivity.
Qed.

Lemma of_int_truthy n : Js.truthy (Js.of_int n) = true.
Proof.
  pose proof (parseInt_of_int n) as H.
  destruct (Js.of_int n); [discriminate H | reflexivity].
Qed.

(** *** Ticket keys and keywords *)

Lemma span_spec p s :
  all_chars p (fst (span p s)) = true
  /\ s = fst (span p s) +:+ snd (span p s).
Proof.
  induction s as [| c r IH]; cbn [span]; [repeat split |].
  destruct (p c) eqn:Hc.
  - destruct (span p r) as [a b]. cbn [fst snd all_chars] in *.
    destruct IH as (Ha & Hs). rewrite Hc, Ha. split; [reflexivity |].
    change (String c r = String c (a +:+ b)). f_equal. exact Hs.
  - cbn [fst snd all_chars]. auto.
Qed.

Lemma span_app p a b :
  all_chars p a = true ->
  match b with String c _ => p c = false | EmptyString => True end ->
  span p (a +:+ b) = (a, b).
Proof.
  induction a as [| c r IH]; intros Ha Hb.
  - change (span p b = ("", b)). destruct b as [| c r]; [reflexivity |].
    cbn [span]. rewrite Hb. reflexivity.
  - cbn [all_chars] in Ha. apply andb_true_iff in Ha as [Hc Hr].
    change (span p (String c (r +:+ b)) = (String c r, b)).
    cbn [span]. rewrite Hc, (IH Hr Hb). reflexivity.
Qed.

Lemma span_app_stop p a c b :
  p c = false ->
  span p (a +:+ String c b) = ((span p a).1, (span p a).2 +:+ String c b).
Proof.
  intros Hc. induction a as [| x a IH].
  - change (span p (String c b) = ("", String c b)). cbn [span].
    rewrite Hc. reflexivity.
  - change (span p (String x (a +:+ String c b))
            = ((span p (String x a)).1, (span p (String x a)).2 +:+ String c b)).
    cbn [span]. destruct (p x); [| reflexivity].
    rewrite IH. destruct (span p a) as [u v]. reflexivity.
Qed.

Lemma prefix_app a c : String.prefix a (a +:+ c) = true.
Proof.
  induction a as [| x a IH]; [destruct c; reflexivity |].
  change (String.prefix (String x a) (String x (a +:+ c)) = true).
  cbn [String.prefix]. destruct (ascii_dec x x); [exact IH | contradiction].
Qed.

Lemma string_app_assoc (a b c : string) : (a +:+ b) +:+ c = a +:+ (b +:+ c).
Proof.
  induction a as [| x a IH]; [reflexivity |].
  change (String x ((a +:+ b) +:+ c) = String x (a +:+ (b +:+ c))).
  f_equal. exact IH.
Qed.

Lemma string_app_nil (a : string) : a +:+ "" = a.
Proof.
  induction a as [| x a IH]; [reflexivity |].
  change (String x (a +:+ "") = String x a). f_equal. exact IH.
Qed.

(** A key matched at the head of [s] is a prefix of [s], and the pattern
    matches the whole of it. *)
Lemma match_jira_key_spec s tok :
  match_jira_key s = Some tok ->
  String.prefix tok s = true /\ match_jira_key tok = Some tok.
Proof.
  unfold match_jira_key.
  pose proof (span_spec Js.is_upper s) as (Hcaps & Hs).
  destruct (span Js.is_upper s) as [caps r]. cbn [fst snd] in *.
  destruct caps as [| c0 caps']; [discriminate |].
  destruct r as [| d r']; [discriminate |].
  destruct (Ascii.eqb d "-") eqn:Hd.
  2:{ destruct d as [[] [] [] [] [] [] [] []]; try discriminate;
      cbn in Hd; discriminate. }
  apply Ascii.eqb_eq in Hd. subst d.
  pose proof (span_spec Js.is_digit r') as (Hds & Hr').
  destruct (span Js.is_digit r') as [ds rest]. cbn [fst snd] in *.
  destruct ds as [| d0 ds']; [discriminate |].
  intros [= <-]. split.
  - rewrite Hs, Hr'.
    change (String "-" (String d0 ds' +:+ rest))
      with ("-" +:+ (String d0 ds' +:+ rest)).
    rewrite <- !string_app_assoc. apply prefix_app.
  - change ("-" +:+ String d0 ds') with (String "-" (String d0 ds')).
    rewrite (span_app Js.is_upper (String c0 caps')
               (String "-" (String d0 ds')) Hcaps eq_refl).
    rewrite <- (string_app_nil (String d0 ds')) at 1.
    rewrite (span_app Js.is_digit (String d0 ds') "" Hds I). reflexivity.
Qed.

(** The blank that joins title and body ends a key, so a key at the head
    of the title is matched as in the title alone. *)
Lemma match_jira_key_title title body :
  match_jira_key (title +:+ " " +:+ body) = match_jira_key title.
Proof.
  unfold match_jira_key.
  change (" " +:+ body) with (String " " body).
  rewrite (span_app_stop Js.is_upper title " " body eq_refl).
  destruct (span Js.is_upper title) as [caps r]. cbn [fst snd].
  destruct caps as [| c0 caps']; [reflexivity |].
  destruct r as [| d r']; [reflexivity |].
  change (String d r' +:+ String " " body)
    with (String d (r' +:+ String " " body)).
  destruct (Ascii.eqb d "-") eqn:Hd.
  2:{ destruct d as [[] [] [] [] [] [] [] []]; try reflexivity;
      cbn in Hd; discriminate. }
  apply Ascii.eqb_eq in Hd. subst d.
  rewrite (span_app_stop Js.is_digit r' " " body eq_refl).
  destruct (span Js.is_digit r') as [ds rest]. reflexivity.
Qed.

Lemma includes_prefix hay needle :
  String.prefix needle hay = true -> Js.includes hay needle = true.
Proof. intros H. destruct hay; cbn [Js.includes]; rewrite H; reflexivity. Qed.

Lemma includes_cons c hay needle :
  Js.includes hay needle = true -> Js.includes (String c hay) needle = true.
Proof.
  intros H. cbn [Js.includes]. fold Js.includes. rewrite H. apply orb_true_r.
Qed.

Lemma match_all_jira_keys_spec s : forall skip t,
  t ∈ match_all_jira_keys s skip ->
  match_jira_key t = Some t /\ Js.includes s t = true.
Proof.
  induction s as [| c r IH]; intros skip t Ht.
  - apply elem_of_nil in Ht. destruct Ht.
  - cbn [match_all_jira_keys] in Ht. destruct skip as [| k].
    + destruct (match_jira_key (String c r)) as [tok |] eqn:Hm.
      * apply elem_of_cons in Ht as [-> | Ht].
        -- apply match_jira_key_spec in Hm as [Hp Hw].
           split; [exact Hw | apply includes_prefix; exact Hp].
        -- apply IH in Ht as [Hw Hi].
           split; [exact Hw | apply includes_cons; exact Hi].
      * apply IH in Ht as [Hw Hi].
        split; [exact Hw | apply includes_cons; exact Hi].
    + apply IH in Ht as [Hw Hi].
      split; [exact Hw | apply includes_cons; exact Hi].
Qed.

Lemma array_includes_elem l x : Js.array_includes l x = true <-> x ∈ l.
Proof.
  unfold Js.array_includes. rewrite existsb_exists. split.
  - intros (y & Hy & He). apply String.eqb_eq in He. subst y.
    apply list_elem_of_In. exact Hy.
  - intros H. exists x.
    split; [apply list_elem_of_In; exact H | apply String.eqb_refl].
Qed.

Lemma uniq_from_spec l : forall seen,
  NoDup (Js.uniq_from seen l)
  /\ forall x, x ∈ Js.uniq_from seen l <-> x ∈ l /\ x ∉ seen.
Proof.
  induction l as [| y r IH]; intros seen; cbn [Js.uniq_from].
  - split; [constructor |]. intros x. rewrite elem_of_nil. tauto.
  - destruct (Js.array_includes seen y) eqn:Hy.
    + apply array_includes_elem in Hy.
      destruct (IH seen) as [Hn Hm]. split; [exact Hn |].
      intros x. rewrite Hm, elem_of_cons. split; [tauto |].
      intros [[-> | Hx] Hs]; [contradiction | tauto].
    + assert (Hy' : y ∉ seen).
      { intros H. apply array_includes_elem in H. congruence. }
      destruct (IH (y :: seen)) as [Hn Hm]. split.
      * constructor; [| exact Hn]. rewrite Hm, elem_of_cons. tauto.
      * intros x. rewrite !elem_of_cons, Hm, elem_of_cons.
        destruct (decide (x = y)) as [-> | Hne]; tauto.
Qed.

(** X13: when [extractJiraContext] finds tickets, the list is not empty
    and has no duplicate; every ticket is a whole key (capitals, a hyphen,
    digits: the pattern matches all of it) that occurs in the title joined
    to the body by a blank; and a key at the head of the title is the
    first ticket. *)
Theorem jira_tickets_well_formed title body ts :
  extractJiraContext title body = Some ts ->
  ts <> [] /\ NoDup ts
  /\ (forall t, t ∈ ts ->
        match_jira_key t = Some t
        /\ Js.includes (title +:+ " " +:+ body) t = true)
  /\ (forall t, match_jira_key title = Some t -> head ts = Some t).
Proof.
  unfold extractJiraContext. cbv zeta.
  set (text := title +:+ " " +:+ body).
  set (tickets := Js.uniq _).
  destruct (0 <? length tickets)%nat eqn:Hlen; [| discriminate].
  intros [= <-]. apply Nat.ltb_lt in Hlen.
  destruct (uniq_from_spec (filter (fun t => Js.truthy t = true)
              (match_all_jira_keys text 0)) []) as [Hn Hm].
  fold (Js.uniq (filter (fun t => Js.truthy t = true)
                   (match_all_jira_keys text 0))) in Hn, Hm.
  fold tickets in Hn, Hm.
  split; [intros H; rewrite H in Hlen; cbn in Hlen; lia |].
  split; [exact Hn |]. split.
  - intros t Ht. apply Hm in Ht as [Ht _].
    apply list_elem_of_filter in Ht as [_ Ht].
    apply (match_all_jira_keys_spec _ _ _ Ht).
  - intros t Ht. rewrite <- (match_jira_key_title title body) in Ht.
    fold text in Ht. subst tickets.
    destruct text as [| c r] eqn:Htext; [discriminate Ht |].
    cbn [match_all_jira_keys]. rewrite Ht.
    assert (Htr : Js.truthy t = true).
    { apply match_jira_key_spec in Ht as [_ Hw].
      destruct t; [discriminate Hw | reflexivity]. }
    rewrite filter_cons_True by exact Htr. reflexivity.
Qed.

Lemma jira_tickets_well_formed_witness :
  extractJiraContext "PROJ-12: fix login" "Implements PROJ-456 and PROJ-12"
  = Some ["PROJ-12"; "PROJ-456"]
  /\ NoDup ["PROJ-12"; "PROJ-456"]
  /\ head ["PROJ-12"; "PROJ-456"] = Some "PROJ-12".
Proof.
  assert (H : extractJiraContext "PROJ-12: fix login"
                "Implements PROJ-456 and PROJ-12"
              = Some ["PROJ-12"; "PROJ-456"]) by (vm_compute; reflexivity).
  split; [exact H |].
  destruct (jira_tickets_well_formed _ _ _ H) as (_ & Hn & _ & Hh).
  split; [exact Hn | apply Hh; vm_compute; reflexivity].
Defined.

Lemma lower_char_not_upper c : Js.is_upper (Js.lower_char c) = false.
Proof. destruct c as [[] [] [] [] [] [] [] []]; reflexivity. Qed.

Lemma toLowerCase_no_capital s :
  all_chars (fun c => negb (Js.is_upper c)) (Js.toLowerCase s) = true.
Proof.
  induction s as [| c r IH]; [reflexivity |].
  unfold Js.toLowerCase in *. cbn [Js.map_chars all_chars].
  rewrite lower_char_not_upper, IH. reflexivity.
Qed.

Lemma split_ws_words q s : forall in_run,
  all_chars q s = true ->
  Forall (fun w => all_chars (fun c => negb (Js.is_space c) && q c) w = true)
    (Js.split_ws s in_run).
Proof.
  induction s as [| c r IH]; intros in_run Hs; cbn [Js.split_ws].
  - repeat constructor.
  - cbn [all_chars] in Hs. apply andb_true_iff in Hs as [Hc Hr].
    destruct (Js.is_space c) eqn:Hsp.
    + destruct in_run; [apply IH; exact Hr |].
      constructor; [reflexivity | apply IH; exact Hr].
    + specialize (IH false Hr). destruct (Js.split_ws r false) as [| w ws].
      * constructor; [| constructor].
        cbn [all_chars]. rewrite Hsp, Hc. reflexivity.
      * inversion IH as [| ? ? Hw Hws]; subst. constructor; [| exact Hws].
        cbn [all_chars]. rewrite Hsp, Hc, Hw. reflexivity.
Qed.

(** X14: [extractKeywords] gives at most ten words; each is longer than
    three characters, is no stop word, and holds neither white space nor
    an ASCII capital. *)
Theorem extractKeywords_words text :
  (length (extractKeywords text) <= 10)%nat
  /\ forall w, w ∈ extractKeywords text ->
       (3 < String.length w)%nat /\ (w ∉ stopWords)
       /\ all_chars keyword_char w = true.
Proof.
  unfold extractKeywords, Js.slice0. cbv zeta. split.
  - rewrite length_take. lia.
  - intros w Hw. apply elem_of_take in Hw as (i & Hw & _).
    apply list_elem_of_lookup_2 in Hw.
    apply list_elem_of_filter in Hw as [Hf Hw].
    apply andb_true_iff in Hf as [Hlen Hstop].
    apply Nat.ltb_lt in Hlen. split; [exact Hlen |]. split.
    + intros Hin. apply negb_true_iff in Hstop.
      apply array_includes_elem in Hin. congruence.
    + pose proof (split_ws_words _ _ false (toLowerCase_no_capital text)) as HF.
      rewrite Forall_forall in HF. apply (HF w Hw).
Qed.

Lemma extractKeywords_words_witness :
  "payment" ∈ extractKeywords "Critical bug WITH Payment system"
  /\ (3 < String.length "payment")%nat /\ ("payment" ∉ stopWords)
  /\ all_chars keyword_char "payment" = true.
Proof.
  assert (H : "payment" ∈ extractKeywords "Critical bug WITH Payment system")
    by (apply (list_elem_of_lookup_2 _ 1); vm_compute; reflexivity).
  split; [exact H |].
  exact (proj2 (extractKeywords_words _) _ H).
Defined.

(** X15: with at most three samples the velocity trend is [stable]
    whatever the samples are: the three most recent ones leave no earlier
    sample, the earlier average is [NaN] and both comparisons fail. *)
Theorem short_history_is_stable (historical : list Q) :
  (length historical <= 3)%nat -> calculateVelocityTrend historical = stable.
Proof.
  intros Hlen. unfold calculateVelocityTrend.
  destruct (length historical <? 2)%nat; [reflexivity |]. cbv zeta.
  unfold slice_but_last.
  replace (length historical - 3)%nat with 0%nat by lia.
  rewrite take_0. cbn [average]. unfold gt_scaled, lt_scaled.
  destruct (average (slice_last 3 historical)); reflexivity.
Qed.

Lemma short_history_is_stable_witness :
  calculateVelocityTrend [1; 50; 100]%Q = stable.
Proof. apply short_history_is_stable. simpl. lia. Defined.

(** *** The extractors of the LLM agent *)

(** X16: without a roster [extractReviewers] suggests nobody; with one,
    the suggestion is a sub-list of the roster in roster order, of at most
    three members, and is empty only when the roster is. *)
Theorem extractReviewers_from_roster analysis :
  extractReviewers analysis None = []
  /\ forall team,
       let r := extractReviewers analysis (Some team) in
       sublist r team /\ (length r <= 3)%nat /\ (team <> [] -> r <> []).
Proof.
  split; [reflexivity |]. intros team. cbv zeta.
  unfold extractReviewers, Js.slice0.
  set (mentioned := filter _ team).
  destruct (0 <? length mentioned)%nat eqn:Hm.
  - apply Nat.ltb_lt in Hm. split; [| split].
    + transitivity mentioned; [apply sublist_take | apply sublist_filter].
    + rewrite length_take. lia.
    + intros _ H. destruct mentioned; [cbn in Hm; lia | discriminate H].
  - split; [| split].
    + apply sublist_take.
    + rewrite length_take. lia.
    + intros Ht H. destruct team; [congruence | discriminate H].
Qed.

Lemma extractReviewers_from_roster_witness :
  extractReviewers "Looks risky" (Some ["dev1"; "dev2"; "dev3"]) <> [].
Proof.
  apply (proj2 (extractReviewers_from_roster "Looks risky")
           ["dev1"; "dev2"; "dev3"]).
  discriminate.
Defined.

Lemma set_add_spec areas x :
  (NoDup areas -> NoDup (set_add areas x))
  /\ forall a, a ∈ set_add areas x <-> a ∈ areas \/ a = x.
Proof.
  unfold set_add. destruct (Js.array_includes areas x) eqn:Hx.
  - apply array_includes_elem in Hx. split; [auto |].
    intros a. split; [auto |]. intros [H | ->]; assumption.
  - assert (x ∉ areas) by (intros H; apply array_includes_elem in H; congruence).
    split.
    + intros Hn. apply NoDup_app. split; [exact Hn |]. split.
      * intros y Hy Hy'. apply list_elem_of_singleton in Hy'. subst y.
        contradiction.
      * apply NoDup_singleton.
    + intros a. rewrite elem_of_app, list_elem_of_singleton. tauto.
Qed.

Lemma fold_set_add_spec l : forall areas,
  (NoDup areas -> NoDup (fold_left set_add l areas))
  /\ forall a, a ∈ fold_left set_add l areas <-> a ∈ areas \/ a ∈ l.
Proof.
  induction l as [| x r IH]; intros areas; cbn [fold_left].
  - split; [auto |]. intros a. rewrite elem_of_nil. tauto.
  - destruct (IH (set_add areas x)) as [Hn Hm].
    destruct (set_add_spec areas x) as [Hn' Hm']. split; [auto |].
    intros a. rewrite Hm, Hm', elem_of_cons. tauto.
Qed.

(** The areas of one file are added to the set one by one. *)
Lemma impact_of_file_fold areas file :
  impact_of_file areas file = fold_left set_add (impact_of_file [] file) areas.
Proof.
  unfold impact_of_file. cbv zeta.
  destruct (Js.includes _ "test");
  destruct (Js.includes _ "config" || Js.includes _ "env");
  destruct (Js.includes _ "db" || Js.includes _ "migration");
  destruct (Js.includes _ "auth");
  destruct (Js.includes _ "api" || Js.includes _ "controller");
  destruct (Js.includes _ "ui" || Js.includes _ "component"); reflexivity.
Qed.

Lemma fold_impact_spec files : forall areas,
  (NoDup areas -> NoDup (fold_left impact_of_file files areas))
  /\ forall a, a ∈ fold_left impact_of_file files areas
       <-> a ∈ areas \/ exists f, f ∈ files /\ a ∈ impact_of_file [] f.
Proof.
  induction files as [| f r IH]; intros areas; cbn [fold_left].
  - split; [auto |]. intros a. split; [auto |].
    intros [H | (f & Hf & _)]; [exact H | apply elem_of_nil in Hf; destruct Hf].
  - destruct (IH (impact_of_file areas f)) as [Hn Hm].
    rewrite impact_of_file_fold in Hn, Hm.
    destruct (fold_set_add_spec (impact_of_file [] f) areas) as [Hn' Hm'].
    rewrite impact_of_file_fold. split; [auto |].
    intros a. rewrite Hm, Hm'. split.
    + intros [[H | H] | (g & Hg & H)]; [left; exact H | right .. ].
      * exists f. split; [left | exact H].
      * exists g. split; [right; exact Hg | exact H].
    + intros [H | (g & Hg & H)]; [left; left; exact H |].
      apply elem_of_cons in Hg as [-> | Hg]; [left; right; exact H |].
      right. exists g. split; assumption.
Qed.

(** X17: the impact areas are a set: no area is listed twice, and an area
    is listed exactly when one of the files alone gives it, whatever the
    other files and their order. *)
Theorem extractImpactAreas_set files :
  NoDup (extractImpactAreas files)
  /\ forall a, a ∈ extractImpactAreas files
       <-> exists f, f ∈ files /\ a ∈ extractImpactAreas [f].
Proof.
  unfold extractImpactAreas. destruct (fold_impact_spec files []) as [Hn Hm].
  split.
  - apply Hn. constructor.
  - intros a. rewrite Hm. cbn [fold_left]. split.
    + intros [H | H]; [apply elem_of_nil in H; destruct H | exact H].
    + intros H. right. exact H.
Qed.

(** X18: an analysis that [extractPriority] reads as [critical] is read
    by [extractRiskLevel] as [high]. *)
Theorem critical_priority_is_high_risk analysis :
  extractPriority analysis = "critical" -> extractRiskLevel analysis = "high".
Proof.
  unfold extractPriority, extractRiskLevel. cbv zeta.
  destruct (Js.includes (Js.toLowerCase analysis) "critical").
  - intros _. rewrite orb_true_r. reflexivity.
  - destruct (Js.includes _ "high priority"); [discriminate |].
    destruct (Js.includes _ "medium priority"); discriminate.
Qed.

Lemma critical_priority_is_high_risk_witness :
  extractRiskLevel "A Critical bug in the payment system" = "high".
Proof.
  apply critical_priority_is_high_risk. vm_compute. reflexivity.
Defined.

(** *** What an operation touches in the workflow map *)

Ltac frame_done Hk :=
  cbn [snd workflowState]; rewrite ?lookup_insert_ne by exact Hk; reflexivity.

Lemma analyzePR_frame W params st k :
  pr_workflow_id params <> k ->
  workflowState (snd (analyzePR W params st)) !! k = workflowState st !! k.
Proof.
  intros Hk. unfold analyzePR, getTeamMembers. exec.
  destruct (getPRDetails W _ _ _ _); exec; [| frame_done Hk].
  destruct (getRepositoryStats W _ _ _); exec;
    destruct (analyzePullRequest W _ _); exec; frame_done Hk.
Qed.

Lemma smartTriage_frame W params st k :
  triage_workflow_id params <> k ->
  workflowState (snd (smartTriage W params st)) !! k = workflowState st !! k.
Proof.
  intros Hk.
  unfold smartTriage, extractGitHubIssueContext, findSimilarIssues,
    getSuggestedSprint.
  exec.
  destruct (getIssue W _ _); exec; [| frame_done Hk].
  destruct (Js.truthy_opt (github_issue_url params)); exec.
  - destruct (negb (Js.truthy_opt (Js.from_end _ 1))); exec;
      [| destruct (negb _ || negb _); exec;
         [| destruct (getIssueDetails W _ _ _ _); exec ] ].
    all: destruct (searchIssues W _ _ _); exec.
    all: destruct (triageIssue W _ _); exec; [| frame_done Hk].
    all: destruct (getIssue W _ _); exec.
    all: destruct (addCommentToIssue W _ _ _); exec; frame_done Hk.
  - destruct (searchIssues W _ _ _); exec.
    all: destruct (triageIssue W _ _); exec; [| frame_done Hk].
    all: destruct (getIssue W _ _); exec.
    all: destruct (addCommentToIssue W _ _ _); exec; frame_done Hk.
Qed.

Lemma orchestrateRelease_frame W params st k :
  release_workflow_id params <> k ->
  workflowState (snd (orchestrateRelease W params st)) !! k
  = workflowState st !! k.
Proof.
  intros Hk.
  unfold orchestrateRelease, executeRelease, getBlockingIssues,
    getTestResults, getDeploymentHistory.
  destruct (negb _ || negb _); [reflexivity |].
  exec.
  destruct (getRepositoryStats W _ _ _); destruct (getProjectIssueStats W _ _);
    destruct (findChannelByName W _ _) as [[ch|]|];
    cbn [promise_all3 rejection]; exec; try frame_done Hk.
  destruct (searchIssues W _ _ _); exec.
  all: destruct (assessReleaseReadiness W _ _); exec; [| frame_done Hk].
  all: destruct (negb _ && bool_decide _); exec.
  all: try (destruct (createRelease W _ _ _ _); exec; [| frame_done Hk]).
  all: destruct (sendNotification W _ _ _); exec; frame_done Hk.
Qed.

Section SyncFrame.

Variable W : World.
Variable params : WorkflowStatusParams.

Ltac turn_framed :=
  eexists _, _; split; [reflexivity |];
  cbn [services with_services workflowState];
  split; [auto |]; intros k Hk; rewrite ?lookup_alter_ne by exact Hk;
  reflexivity.

(** One turn of the loop leaves [services] as it was or merges the update
    into the platform's entry, and touches no other workflow of the map. *)
Lemma sync_platform_services u p st :
  exists u' st',
    sync_platform W params u p st = (Resolved u', st')
    /\ (services u' = services u
        \/ services u' = merged_services (status_update params) u p)
    /\ forall k, workflow_id params <> k ->
                 workflowState st' !! k = workflowState st !! k.
Proof.
  unfold sync_platform, updateStatusOnPlatform, merged_services. exec.
  destruct p.
  - destruct (Js.truthy_opt _); exec;
      [ destruct (Js.array_includes _ _); exec;
        [ destruct (negb (Js.truthy_opt (Js.from_end _ 1))); exec;
          [| destruct (negb _ || negb _); exec;
             [| destruct (updatePRStatus W _ _ _ _ _ _); exec ] ] |] |].
    all: turn_framed.
  - destruct (Js.truthy_opt _); exec;
      [ destruct (addCommentToIssue W _ _ _); exec |].
    all: turn_framed.
  - destruct (Js.truthy_opt _); exec;
      [ destruct (sendNotification W _ _ _); exec |].
    all: turn_framed.
Qed.

Lemma sync_platforms_services ps : forall u st,
  exists u' st',
    sync_platforms W params u ps st = (Resolved u', st')
    /\ (forall q,
          entry_synced (status_update params) ps (services u) (services u') q)
    /\ forall k, workflow_id params <> k ->
                 workflowState st' !! k = workflowState st !! k.
Proof.
  induction ps as [| p ps IH]; intros u st.
  - exists u, st. split; [reflexivity |]. split; [left; reflexivity | auto].
  - destruct (sync_platform_services u p st) as (u1 & st1 & E1 & S1 & F1).
    destruct (IH u1 st1) as (u2 & st2 & E2 & S2 & F2).
    exists u2, st2. split; [| split].
    + cbn [sync_platforms]. unfold bind. rewrite E1. exact E2.
    + intros q. unfold entry_synced.
      destruct (S2 q) as [Hq | [(p' & Hin & Hname) Hq]]; rewrite Hq.
      * destruct S1 as [-> | ->]; [left; reflexivity |].
        unfold merged_services.
        destruct (decide (platform_name p = q)) as [<- | Hne].
        -- right. split; [exists p; split; [left | reflexivity] |].
           apply lookup_insert_eq.
        -- left. apply lookup_insert_ne. exact Hne.
      * right. split; [exists p'; split; [right; exact Hin | exact Hname] |].
        f_equal. destruct S1 as [-> | ->]; [reflexivity |].
        unfold merged_services.
        destruct (decide (platform_name p = q)) as [<- | Hne].
        -- rewrite lookup_insert_eq. cbn [from_option]; unfold Datatypes.id.
           rewrite <- (assoc_L (∪)), (idemp_L (∪)). reflexivity.
        -- rewrite lookup_insert_ne by exact Hne. reflexivity.
    + intros k Hk. rewrite F2, F1 by exact Hk. reflexivity.
Qed.

End SyncFrame.

Lemma syncWorkflowStatus_frame W params st k :
  workflow_id params <> k ->
  workflowState (snd (syncWorkflowStatus W params st)) !! k
  = workflowState st !! k.
Proof.
  intros Hk. unfold syncWorkflowStatus. exec.
  destruct (workflowState st !! workflow_id params) as [existing |];
    [| reflexivity].
  match goal with
  | |- context [sync_platforms W params ?u ?ps ?s] =>
      destruct (sync_platforms_services W params ps u s)
        as (u' & st' & E & _ & F); rewrite E
  end.
  cbn [snd workflowState]. rewrite lookup_insert_ne by exact Hk.
  rewrite (F k Hk). reflexivity.
Qed.

(** X1: each operation touches one entry of the workflow map, its own:
    whatever the adapters answer and whether the operation resolves or
    rejects, the record stored under any other workflow id is afterwards
    what it was. *)
Theorem operations_touch_own_workflow W st k :
  (forall params, pr_workflow_id params <> k ->
     workflowState (snd (analyzePR W params st)) !! k = workflowState st !! k)
  /\ (forall params, triage_workflow_id params <> k ->
        workflowState (snd (smartTriage W params st)) !! k
        = workflowState st !! k)
  /\ (forall params, release_workflow_id params <> k ->
        workflowState (snd (orchestrateRelease W params st)) !! k
        = workflowState st !! k)
  /\ (forall params, workflow_id params <> k ->
        workflowState (snd (syncWorkflowStatus W params st)) !! k
        = workflowState st !! k).
Proof.
  split; [| split; [| split]]; intros params Hk.
  - apply analyzePR_frame. exact Hk.
  - apply smartTriage_frame. exact Hk.
  - apply orchestrateRelease_frame. exact Hk.
  - apply syncWorkflowStatus_frame. exact Hk.
Qed.

Lemma operations_touch_own_workflow_witness :
  let W := mock_world false false (Some releases_channel) 85 in
  let st1 := snd (analyzePR W pr_o_r_1 init) in
  triage_workflow_id triage_PROJ_789 <> "pr-o-r-1"
  /\ workflowState (snd (smartTriage W triage_PROJ_789 st1)) !! "pr-o-r-1"
     = workflowState st1 !! "pr-o-r-1".
Proof.
  intros W st1.
  assert (H : triage_workflow_id triage_PROJ_789 <> "pr-o-r-1")
    by (vm_compute; discriminate).
  split; [exact H |].
  exact (proj1 (proj2 (operations_touch_own_workflow W st1 "pr-o-r-1"))
           triage_PROJ_789 H).
Defined.

(** *** What a sync does to the stored pointers *)

(** X2: a sync on a known workflow merges, it never replaces: the stored
    record's entry for a platform is afterwards what it was, or, for a
    platform of the call, the update filed as [status] under the fields
    the entry already had; so no field of any pointer is lost or changed,
    and the platforms that the call does not name keep their entries. *)
Theorem sync_merges_pointers W params st existing :
  workflowState st !! workflow_id params = Some existing ->
  exists u st',
    syncWorkflowStatus W params st = (Resolved u, st')
    /\ workflowState st' !! workflow_id params = Some u
    /\ (forall q,
          entry_synced (status_update params)
            (Js.or_list (platforms params) [github; jira; slack])
            (services existing) (services u) q)
    /\ (forall q f v,
          pointer_field existing q f = Some v -> pointer_field u q f = Some v).
Proof.
  intros Hget. unfold syncWorkflowStatus. exec. rewrite Hget.
  match goal with
  | |- context [sync_platforms W params ?u ?ps ?s] =>
      destruct (sync_platforms_services W params ps u s)
        as (u' & st' & E & S & _); rewrite E
  end.
  cbn [services] in S.
  eexists _, _. split; [reflexivity |]. cbn [workflowState].
  split; [apply lookup_insert_eq |]. split; [exact S |].
  intros q f v. unfold pointer_field.
  destruct (S q) as [-> | [_ ->]]; [auto |].
  destruct (services existing !! q) as [cur |];
    cbn [mbind option_bind from_option]; [| discriminate].
  unfold Datatypes.id. intros Hv. apply lookup_union_Some_l. exact Hv.
Qed.

Lemma sync_merges_pointers_witness :
  let W := mock_world false false (Some releases_channel) 85 in
  let st1 := snd (analyzePR W pr_o_r_1 init) in
  exists existing u st',
    workflowState st1 !! workflow_id (sync_in_review (Some [github; slack]))
    = Some existing
    /\ syncWorkflowStatus W (sync_in_review (Some [github; slack])) st1
       = (Resolved u, st')
    /\ forall q f v,
         pointer_field existing q f = Some v -> pointer_field u q f = Some v.
Proof.
  intros W st1.
  destruct (workflowState st1
              !! workflow_id (sync_in_review (Some [github; slack])))
    as [existing |] eqn:Hget.
  - destruct (sync_merges_pointers W (sync_in_review (Some [github; slack]))
                st1 existing Hget) as (u & st' & E & _ & _ & H).
    exists existing, u, st'. split; [reflexivity |]. split; [exact E | exact H].
  - exfalso. vm_compute in Hget. discriminate Hget.
Defined.

(** X3: a sync that names one platform for which the stored record has no
    entry pushes nothing: the run is the dispatch and the write of the
    record; yet the record then holds an entry for that platform, made of
    the [status] alone. *)
Theorem sync_without_pointer W params st existing p :
  workflowState st !! workflow_id params = Some existing ->
  platforms params = Some [p] ->
  services existing !! platform_name p = None ->
  exists u st',
    syncWorkflowStatus W params st = (Resolved u, st')
    /\ events_since st st' = [PlatformSync p; StoreSet (workflow_id params) u]
    /\ services u !! platform_name p
       = Some {[ "status" := status_update params ]}
    /\ workflowState st' !! workflow_id params = Some u.
Proof.
  intros Hget Hps Hnone. unfold syncWorkflowStatus. exec.
  rewrite Hget, Hps. cbn [Js.or_list sync_platforms].
  unfold sync_platform, updateStatusOnPlatform. exec.
  assert (Hf : forall f, pointer_field
                 {| id := id existing; type := type existing;
                    status := status_update params;
                    lastUpdated := now W (dates st);
                    services := services existing |} (platform_name p) f = None).
  { intros f. unfold pointer_field. cbn [services]. rewrite Hnone. reflexivity. }
  destruct p; cbn [platform_name] in *; rewrite Hf; cbn [Js.truthy_opt]; exec.
  all: cbn [services]; rewrite Hnone; cbn [from_option].
  all: eexists _, _; split; [reflexivity |].
  all: split; [apply events_since_app; cbn [trace]; rewrite <- app_assoc;
               reflexivity |].
  all: cbn [services with_services workflowState].
  all: rewrite (left_id_L ∅ (∪)), !lookup_insert_eq; auto.
Qed.

Lemma sync_without_pointer_witness :
  let W := mock_world false false (Some releases_channel) 85 in
  let st1 := snd (analyzePR W pr_o_r_1 init) in
  exists u st',
    syncWorkflowStatus W (sync_in_review (Some [jira])) st1 = (Resolved u, st')
    /\ events_since st1 st' = [PlatformSync jira; StoreSet "pr-o-r-1" u]
    /\ services u !! "jira" = Some {[ "status" := "in-review" ]}.
Proof.
  intros W st1.
  destruct (workflowState st1 !! workflow_id (sync_in_review (Some [jira])))
    as [existing |] eqn:Hget.
  - assert (Hnone : services existing !! platform_name jira = None).
    { vm_compute in Hget. injection Hget as <-. vm_compute. reflexivity. }
    destruct (sync_without_pointer W (sync_in_review (Some [jira])) st1
                existing jira Hget eq_refl Hnone)
      as (u & st' & E & Hev & Hs & _).
    exists u, st'. split; [exact E |]. split; [exact Hev | exact Hs].
  - exfalso. vm_compute in Hget. discriminate Hget.
Defined.

Lemma pr_url_parts params :
  has_char "/" (owner params) = false ->
  has_char "/" (repo params) = false ->
  Js.split "/" (pr_url params)
  = ["https:"; ""; "github.com"; owner params; repo params; "pull";
     Js.of_int (pull_number params)].
Proof.
  intros Ho Hr.
  change (pr_url params)
    with ("https:" +:+ String "/" ("" +:+ String "/" ("github.com" +:+ String "/"
            (owner params +:+ String "/" (repo params +:+ String "/"
               ("pull" +:+ String "/" (Js.of_int (pull_number params)))))))).
  rewrite !split_app by (first [reflexivity | assumption]).
  rewrite split_no_sep by apply of_int_no_slash. reflexivity.
Qed.

Lemma analyzePR_resolved_pointer W params st res st1 :
  analyzePR W params st = (Resolved res, st1) ->
  exists d,
    workflowState st1 !! pr_workflow_id params
    = Some (phase_record (pr_workflow_id params) pr "completed" d
              {[ "github" :=
                   {[ "status" := "analyzed"; "url" := pr_url params ]} ]}).
Proof.
  unfold analyzePR, getTeamMembers. exec.
  destruct (getPRDetails W _ _ _ _); exec; [| discriminate].
  destruct (getRepositoryStats W _ _ _); exec;
    (destruct (analyzePullRequest W _ _); exec; [| discriminate]).
  all: intros [= _ <-]; cbn [workflowState]; rewrite lookup_insert_eq.
  all: eexists; reflexivity.
Qed.

(** X4: the pointer that [analyzePR] stores leads a later sync back to
    the same pull request: for an owner and a repository name that are not
    empty and hold no slash, a sync to [github] on the workflow of a
    resolved analysis issues one PR status update, for that owner,
    repository and pull number, with state [pending] and the description
    [IDWO: <update>]; the url written with [String(pull_number)] is read
    back by [split] and [parseInt]. *)
Theorem sync_reaches_analysed_pr W prp st res st1 upd :
  has_char "/" (owner prp) = false -> owner prp <> "" ->
  has_char "/" (repo prp) = false -> repo prp <> "" ->
  analyzePR W prp st = (Resolved res, st1) ->
  exists stored st2,
    syncWorkflowStatus W
      {| workflow_id := pr_workflow_id prp; status_update := upd;
         platforms := Some [github] |} st1
    = (Resolved stored, st2)
    /\ events_since st1 st2
       = [PlatformSync github;
          UpdatePRStatus (owner prp) (repo prp) (Some (pull_number prp))
            "pending" ("IDWO: " +:+ upd);
          StoreSet (pr_workflow_id prp) stored].
Proof.
  intros Ho Ho' Hr Hr' Hrun.
  destruct (analyzePR_resolved_pointer _ _ _ _ _ Hrun) as (d & Hget).
  unfold syncWorkflowStatus. exec.
  cbn [workflow_id status_update platforms]. rewrite Hget.
  cbn [Js.or_list sync_platforms]. unfold sync_platform, updateStatusOnPlatform.
  exec. cbn [workflow_id status_update platforms].
  assert (Hurl : forall t, pointer_field
            {| id := id (phase_record (pr_workflow_id prp) pr "completed" d
                  {[ "github" :=
                       {[ "status" := "analyzed"; "url" := pr_url prp ]} ]});
               type := type (phase_record (pr_workflow_id prp) pr "completed" d
                  {[ "github" :=
                       {[ "status" := "analyzed"; "url" := pr_url prp ]} ]});
               status := upd; lastUpdated := t;
               services :=
                 services (phase_record (pr_workflow_id prp) pr "completed" d
                  {[ "github" :=
                       {[ "status" := "analyzed"; "url" := pr_url prp ]} ]}) |}
            "github" "url" = Some (pr_url prp)).
  { intros t. unfold pointer_field. cbn [services phase_record].
    rewrite lookup_singleton_eq. cbn [mbind option_bind].
    rewrite lookup_insert_ne by discriminate. apply lookup_singleton_eq. }
  rewrite Hurl. cbn [Js.truthy_opt from_option]. unfold Datatypes.id.
  assert (Ht : Js.truthy (pr_url prp) = true) by reflexivity.
  rewrite Ht, (pr_url_parts prp Ho Hr).
  assert (Hinc : Js.array_includes
                   ["https:"; ""; "github.com"; owner prp; repo prp; "pull";
                    Js.of_int (pull_number prp)] "pull" = true).
  { unfold Js.array_includes. cbn [existsb].
    rewrite (String.eqb_refl "pull"), !orb_true_r. reflexivity. }
  rewrite Hinc.
  cbn [Js.from_end length Nat.ltb Nat.leb Nat.sub lookup list_lookup
       Js.truthy_opt from_option].
  unfold Datatypes.id.
  rewrite of_int_truthy, (truthy_nonempty _ Ho'), (truthy_nonempty _ Hr').
  cbn [negb orb]. rewrite parseInt_of_int. exec.
  destruct (updatePRStatus W _ _ _ _ _ _); exec.
  all: eexists _, _; split; [reflexivity |].
  all: apply events_since_app; cbn [trace]; rewrite <- !app_assoc; reflexivity.
Qed.

Lemma sync_reaches_analysed_pr_witness :
  let W := mock_world false false (Some releases_channel) 85 in
  let run := analyzePR W pr_o_r_1 init in
  resolved (fst run) = true
  /\ exists stored st2,
       syncWorkflowStatus W (sync_in_review (Some [github])) (snd run)
       = (Resolved stored, st2)
       /\ events_since (snd run) st2
          = [PlatformSync github;
             UpdatePRStatus "o" "r" (Some 1) "pending" "IDWO: in-review";
             StoreSet "pr-o-r-1" stored].
Proof.
  intros W run. split; [vm_compute; reflexivity |].
  destruct run as [[res | e] st1] eqn:Hrun.
  - exact (sync_reaches_analysed_pr W pr_o_r_1 init res st1 "in-review"
             eq_refl ltac:(discriminate) eq_refl ltac:(discriminate) Hrun).
  - exfalso. vm_compute in Hrun. discriminate Hrun.
Defined.

(** *** The GitHub issue url of a triage *)

Lemma issue_url_parts o r n :
  has_char "/" o = false -> has_char "/" r = false ->
  Js.split "/" (issue_url o r n)
  = ["https:"; ""; "github.com"; o; r; "issues"; Js.of_int n].
Proof.
  intros Ho Hr.
  change (issue_url o r n)
    with ("https:" +:+ String "/" ("" +:+ String "/" ("github.com" +:+ String "/"
            (o +:+ String "/" (r +:+ String "/"
               ("issues" +:+ String "/" (Js.of_int n))))))).
  rewrite !split_app by (first [reflexivity | assumption]).
  rewrite split_no_sep by apply of_int_no_slash. reflexivity.
Qed.

Lemma split_ends_empty sep s :
  exists w l, Js.split sep (s +:+ String sep "") = w :: l ++ [""].
Proof.
  induction s as [| d r IH].
  - exists "", []. change (Js.split sep (String sep "") = [""; ""]).
    cbn -[Ascii.eqb]. rewrite Ascii.eqb_refl. reflexivity.
  - destruct IH as (w & l & Hl).
    change (exists w0 l0,
              Js.split sep (String d (r +:+ String sep "")) = w0 :: l0 ++ [""]).
    cbn -[Ascii.eqb]. rewrite Hl. destruct (Ascii.eqb d sep).
    + exists "", (w :: l). reflexivity.
    + exists (String d w), l. reflexivity.
Qed.

Lemma from_end_last w l x : Js.from_end (w :: l ++ [x]) 1 = Some x.
Proof.
  change (w :: l ++ [x]) with ((w :: l) ++ [x]).
  unfold Js.from_end. rewrite length_app.
  destruct (length (w :: l) + length [x] <? 1)%nat eqn:H;
    [apply Nat.ltb_lt in H; cbn [length] in H; lia |].
  rewrite lookup_app_r by (cbn [length]; lia).
  replace (length (w :: l) + length [x] - 1 - length (w :: l))%nat
    with 0%nat by (cbn [length]; lia).
  reflexivity.
Qed.

Lemma events_since_refl st : events_since st st = [].
Proof. unfold events_since. apply drop_all. Qed.

(** X12: the GitHub issue lookup of a triage is best effort.  It never
    rejects and never touches the workflow map; it makes at most one call,
    [getIssueDetails], and gives no context when it makes none.  For the
    url of issue [n] of [o/r] (names not empty, without slash) the call is
    for [o], [r] and [n], and a rejection of it gives no context.  A url
    that ends with a slash is refused before any call. *)
Theorem issue_context_best_effort W st :
  (forall url, exists r st',
      extractGitHubIssueContext W url st = (Resolved r, st')
      /\ workflowState st' = workflowState st
      /\ (events_since st st' = [] /\ r = None
          \/ exists o rp n, events_since st st' = [GetIssueDetails o rp n]))
  /\ (forall o rp n,
        has_char "/" o = false -> o <> "" ->
        has_char "/" rp = false -> rp <> "" ->
        exists st',
          extractGitHubIssueContext W (issue_url o rp n) st
          = (Resolved (match getIssueDetails W (trace st) o rp (Some n) with
                       | Resolved d => Some d
                       | Rejected _ => None
                       end), st')
          /\ events_since st st' = [GetIssueDetails o rp (Some n)])
  /\ (forall url,
        extractGitHubIssueContext W (url +:+ "/") st = (Resolved None, st)).
Proof.
  split; [| split].
  - intros url. unfold extractGitHubIssueContext. exec.
    destruct (negb (Js.truthy_opt (Js.from_end _ 1))); exec;
      [| destruct (negb _ || negb _); exec;
         [| destruct (getIssueDetails W _ _ _ _); exec ] ].
    all: eexists _, _; split; [reflexivity |]; split; [reflexivity |].
    1, 2: left; split; [apply events_since_refl | reflexivity].
    all: right; eexists _, _, _; apply events_since_app; reflexivity.
  - intros o rp n Ho Ho' Hr Hr'. unfold extractGitHubIssueContext. exec.
    rewrite (issue_url_parts o rp n Ho Hr).
    cbn [Js.from_end length Nat.ltb Nat.leb Nat.sub lookup list_lookup
         Js.truthy_opt from_option].
    unfold Datatypes.id.
    rewrite of_int_truthy, (truthy_nonempty _ Ho'), (truthy_nonempty _ Hr').
    cbn [negb orb]. rewrite parseInt_of_int. exec.
    destruct (getIssueDetails W _ _ _ _); exec.
    all: eexists; split; [reflexivity |]; apply events_since_app; reflexivity.
  - intros url. unfold extractGitHubIssueContext. exec.
    destruct (split_ends_empty "/" url) as (w & l & Hsplit).
    change (url +:+ "/") with (url +:+ String "/" "").
    rewrite Hsplit, from_end_last. reflexivity.
Qed.

Lemma issue_context_best_effort_witness :
  let W := mock_world false false None 85 in
  exists st',
    extractGitHubIssueContext W (issue_url "org" "repo" 42) init
    = (Resolved None, st')
    /\ events_since init st' = [GetIssueDetails "org" "repo" (Some 42)].
Proof.
  intros W.
  exact (proj1 (proj2 (issue_context_best_effort W init)) "org" "repo" 42
           eq_refl ltac:(discriminate) eq_refl ltac:(discriminate)).
Defined.

(** *** Release orchestration *)

(** X5: [orchestrateRelease] refuses a repository identifier without an
    owner part or without a repository part before anything else happens:
    it rejects with the format error and the state (map, trace) is what it
    was, so no workflow record is created.  An identifier without a slash,
    one that starts with a slash and a slash-free name followed by a slash
    are such identifiers. *)
Theorem malformed_repository_rejected W params st :
  (well_formed_repository (repository params) = false ->
   orchestrateRelease W params st = (Rejected invalid_repository, st))
  /\ (has_char "/" (repository params) = false ->
      well_formed_repository (repository params) = false)
  /\ (forall s, well_formed_repository ("/" +:+ s) = false)
  /\ (forall s, has_char "/" s = false ->
                well_formed_repository (s +:+ "/") = false).
Proof.
  split; [| split; [| split]].
  - unfold well_formed_repository, orchestrateRelease.
    intros H. apply andb_false_iff in H as [-> | ->]; cbn [negb orb];
      rewrite ?orb_true_r; reflexivity.
  - intros H. unfold well_formed_repository. rewrite (split_no_sep _ _ H).
    apply andb_false_r.
  - intros s. reflexivity.
  - intros s H. unfold well_formed_repository.
    rewrite (split_sep_end "/" s H). apply andb_false_r.
Qed.

Lemma malformed_repository_rejected_witness :
  let W := mock_world false false (Some releases_channel) 85 in
  let params :=
    {| release_version := "v1.0.0"; repository := "repo-without-owner";
       jira_project := "PROJ"; slack_channel := "#releases";
       dry_run := None |} in
  orchestrateRelease W params init = (Rejected invalid_repository, init).
Proof.
  intros W params.
  destruct (malformed_repository_rejected W params init) as (H1 & H2 & _).
  apply H1, H2. reflexivity.
Defined.

Lemma proceed_score x : determineReleaseRecommendation x = proceed -> 85 <= x.
Proof.
  unfold determineReleaseRecommendation.
  destruct (85 <=? x) eqn:H; [lia |]. destruct (70 <=? x); discriminate.
Qed.

Ltac in_events H :=
  repeat (apply elem_of_cons in H as [H | H]; [try discriminate H |]);
  try (apply elem_of_nil in H; destruct H).

(** X6: a release is created only when everything clears it: if a run of
    [orchestrateRelease] issues [createRelease], the call was no dry run,
    the readiness assessment resolved with a score of 85 or more (70
    standing for a missing or zero score), and the release is not a draft,
    is tagged with the requested version and goes to the owner and
    repository parts of the identifier. *)
Theorem release_only_when_cleared W params st o r rel :
  CreateRelease o r rel
    ∈ events_since st (snd (orchestrateRelease W params st)) ->
  default false (dry_run params) = false
  /\ draft rel = false
  /\ tag_name rel = release_version params
  /\ Js.split "/" (repository params) !! 0%nat = Some o
  /\ Js.split "/" (repository params) !! 1%nat = Some r
  /\ exists h data ai,
       assessReleaseReadiness W h data = Resolved ai
       /\ 85 <= Js.or_int (structuredData ai ≫= readinessScore) 70.
Proof.
  unfold orchestrateRelease, executeRelease, getBlockingIssues,
    getTestResults, getDeploymentHistory.
  destruct (Js.split "/" (repository params) !! 0%nat) as [o0 |] eqn:Ho;
    [| intros H; cbn in H; rewrite events_since_refl in H; in_events H].
  destruct (Js.split "/" (repository params) !! 1%nat) as [r0 |] eqn:Hr;
    [| intros H; cbn [Js.truthy_opt negb orb] in H; rewrite orb_true_r in H;
       cbn in H; rewrite events_since_refl in H; in_events H].
  destruct (negb (Js.truthy_opt (Some o0)) || negb (Js.truthy_opt (Some r0)));
    [intros H; cbn in H; rewrite events_since_refl in H; in_events H |].
  cbn [from_option]. unfold Datatypes.id. exec.
  destruct (getRepositoryStats W _ _ _); destruct (getProjectIssueStats W _ _);
    destruct (findChannelByName W _ _) as [[ch|]|];
    cbn [promise_all3 rejection]; exec;
    try (intros H; since H; in_events H).
  destruct (searchIssues W _ _ _); exec.
  all: destruct (assessReleaseReadiness W _ _) eqn:Hai; exec;
    [| intros H; since H; in_events H].
  all: destruct (negb _ && bool_decide _) eqn:Hgate; exec.
  all: try (destruct (createRelease W _ _ _ _); exec).
  all: try (destruct (sendNotification W _ _ _); exec).
  all: intros H; since H; in_events H.
  all: injection H as -> -> ->.
  all: apply andb_true_iff in Hgate as [Hdry Hrec].
  all: apply negb_true_iff in Hdry; apply bool_decide_eq_true in Hrec.
  all: cbn [recommendation] in Hrec.
  all: cbn [draft tag_name recommendation].
  all: rewrite Hrec.
  all: repeat split; try reflexivity; try exact Hdry.
  all: eexists _, _, _; split; [exact Hai | apply proceed_score; exact Hrec].
Qed.

Lemma release_only_when_cleared_witness :
  let W := mock_world false false (Some releases_channel) 85 in
  let evs := events_since init (snd (orchestrateRelease W release_v1 init)) in
  exists rel,
    CreateRelease "test" "repo" rel ∈ evs
    /\ default false (dry_run release_v1) = false
    /\ draft rel = false
    /\ tag_name rel = "v1.0.0".
Proof.
  intros W evs.
  assert (H : exists i rel, evs !! i = Some (CreateRelease "test" "repo" rel)).
  { exists 6%nat. vm_compute. eexists. reflexivity. }
  destruct H as (i & rel & H). apply list_elem_of_lookup_2 in H.
  exists rel. split; [exact H |].
  destruct (release_only_when_cleared W release_v1 init "test" "repo" rel H)
    as (Hd & Hdraft & Htag & _).
  split; [exact Hd |]. split; [exact Hdraft | exact Htag].
Defined.

Lemma or_int_nonzero o d : d <> 0 -> Js.or_int o d <> 0.
Proof.
  intros Hd. unfold Js.or_int. destruct o as [n |]; [| exact Hd].
  destruct (n =? 0) eqn:H; [exact Hd | apply Z.eqb_neq; exact H].
Qed.

Lemma or_string_truthy o d : d <> "" -> Js.or_string o d <> "".
Proof.
  intros Hd. unfold Js.or_string, Js.truthy. destruct o as [s |]; [| exact Hd].
  destruct (String.eqb s "") eqn:H; [exact Hd |].
  apply String.eqb_neq. exact H.
Qed.

(** X7: a release orchestration that resolves has done all of this: its
    recommendation is the one of its readiness score, which is never 0;
    the reported test coverage is 0 (the test results are a stub); a
    release was created exactly when the call was no dry run and the
    recommendation is [proceed]; one chat notification was sent, coloured
    after the recommendation; and the stored record is the completed one,
    with the three pointers, the Slack one naming the notified channel. *)
Theorem release_completion W params st res st' :
  orchestrateRelease W params st = (Resolved res, st') ->
  recommendation res = determineReleaseRecommendation (readiness res)
  /\ readiness res <> 0
  /\ testCoverage res = 0
  /\ existsb is_create_release (events_since st st')
     = negb (default false (dry_run params))
       && bool_decide (recommendation res = proceed)
  /\ exists ch n d,
       notifications (events_since st st') = [(ch, n)]
       /\ n_color n = color_of (recommendation res)
       /\ workflowState st' !! release_workflow_id params
          = Some (phase_record (release_workflow_id params) release
                    "completed" d
                    {[ "github" :=
                         {[ "status" := "analyzed";
                            "url" := "https://github.com/"
                                     +:+ repository params ]};
                       "jira" :=
                         {[ "status" := "analyzed";
                            "key" := jira_project params ]};
                       "slack" :=
                         {[ "channel" := ch;
                            "messageId" := "notification-sent" ]} ]}).
Proof.
  unfold orchestrateRelease, executeRelease, getBlockingIssues,
    getTestResults, getDeploymentHistory.
  destruct (negb _ || negb _); [discriminate |].
  exec.
  destruct (getRepositoryStats W _ _ _); destruct (getProjectIssueStats W _ _);
    destruct (findChannelByName W _ _) as [[ch|]|];
    cbn [promise_all3 rejection]; exec; try discriminate.
  destruct (searchIssues W _ _ _); exec.
  all: destruct (assessReleaseReadiness W _ _); exec; [| discriminate].
  all: destruct (negb _ && bool_decide _) eqn:Hgate; exec.
  all: try (destruct (createRelease W _ _ _ _); exec; [| discriminate]).
  all: destruct (sendNotification W _ _ _); exec; [| discriminate].
  all: intros [= <- <-];
    cbn [recommendation readiness testCoverage coverage] in *.
  all: split; [reflexivity |]; split; [apply or_int_nonzero; discriminate |].
  all: split; [reflexivity |]; since_goal.
  all: split; [rewrite Hgate; reflexivity |].
  all: eexists _, _, _; split; [reflexivity |]; split;
    [cbn [n_color]; destruct (determineReleaseRecommendation _); reflexivity |].
  all: cbn [workflowState]; apply lookup_insert_eq.
Qed.

Lemma release_completion_witness :
  let W := mock_world false false (Some releases_channel) 72 in
  let run := orchestrateRelease W release_v1 init in
  exists res,
    fst run = Resolved res
    /\ recommendation res = caution
    /\ existsb is_create_release (events_since init (snd run)) = false
    /\ exists ch n,
         notifications (events_since init (snd run)) = [(ch, n)]
         /\ n_color n = "warning".
Proof.
  intros W run.
  destruct run as [[res | e] st'] eqn:Hrun.
  - pose proof (release_completion W release_v1 init res st' Hrun)
      as (Hrec & _ & _ & Hcr & ch & n & d & Hn & Hc & _).
    assert (Hres : recommendation res = caution).
    { subst W. vm_compute in Hrun. injection Hrun as <- _. reflexivity. }
    exists res. split; [reflexivity |]. split; [exact Hres |].
    cbn [snd]. split.
    + rewrite Hcr, Hres. apply andb_false_r.
    + exists ch, n. split; [exact Hn |]. rewrite Hc, Hres. reflexivity.
  - exfalso. vm_compute in Hrun. discriminate Hrun.
Defined.

(** X8: the decision objects of a resolved analysis carry the fallbacks
    of the code where the LLM's structured data are missing, empty or
    zero: a PR analysis has a risk level that is not empty and a review
    time that is not 0, and no related ticket unless the Jira context was
    asked for; a triage has a priority and a category that are not empty
    and an effort that is not 0. *)
Theorem decision_defaults W st :
  (forall params res st',
     analyzePR W params st = (Resolved res, st') ->
     pra_riskLevel res <> ""
     /\ ~ (pra_estimatedReviewTime res == 0)%Q
     /\ (default false (include_jira_context params) = false ->
         pra_relatedJiraTickets res = []))
  /\ (forall params res st',
        smartTriage W params st = (Resolved res, st') ->
        itr_priority res <> "" /\ itr_category res <> ""
        /\ itr_estimatedEffort res <> 0).
Proof.
  split.
  - intros params res st'. unfold analyzePR, getTeamMembers. exec.
    destruct (getPRDetails W _ _ _ _); exec; [| discriminate].
    destruct (getRepositoryStats W _ _ _); exec;
      (destruct (analyzePullRequest W _ _) as [ai |]; exec; [| discriminate]).
    all: intros [= <- <-];
      cbn [pra_riskLevel pra_estimatedReviewTime pra_relatedJiraTickets].
    all: split; [apply or_string_truthy; discriminate |].
    all: split; [| intros ->; reflexivity].
    all: destruct (structuredData ai ≫= estimatedReviewTime) as [t |];
      [| discriminate].
    all: destruct (Qeq_bool t 0) eqn:Ht; [discriminate |].
    all: intros Hz; apply Qeq_bool_iff in Hz; congruence.
  - intros params res st'.
    unfold smartTriage, extractGitHubIssueContext, findSimilarIssues,
      getSuggestedSprint.
    exec.
    destruct (getIssue W _ _); exec; [| discriminate].
    destruct (Js.truthy_opt (github_issue_url params)); exec.
    + destruct (negb (Js.truthy_opt (Js.from_end _ 1))); exec;
        [| destruct (negb _ || negb _); exec;
           [| destruct (getIssueDetails W _ _ _ _); exec ] ].
      all: destruct (searchIssues W _ _ _); exec.
      all: destruct (triageIssue W _ _); exec; [| discriminate].
      all: destruct (getIssue W _ _); exec.
      all: destruct (addCommentToIssue W _ _ _); exec; [| discriminate].
      all: intros [= <- <-];
        cbn [itr_priority itr_category itr_estimatedEffort].
      all: split; [apply or_string_truthy; discriminate |].
      all: split; [apply or_string_truthy; discriminate |].
      all: apply or_int_nonzero; discriminate.
    + destruct (searchIssues W _ _ _); exec.
      all: destruct (triageIssue W _ _); exec; [| discriminate].
      all: destruct (getIssue W _ _); exec.
      all: destruct (addCommentToIssue W _ _ _); exec; [| discriminate].
      all: intros [= <- <-];
        cbn [itr_priority itr_category itr_estimatedEffort].
      all: split; [apply or_string_truthy; discriminate |].
      all: split; [apply or_string_truthy; discriminate |].
      all: apply or_int_nonzero; discriminate.
Qed.

Lemma decision_defaults_witness :
  let W := mock_world false false (Some releases_channel) 85 in
  let run := analyzePR W pr_o_r_1 init in
  exists res,
    fst run = Resolved res
    /\ pra_riskLevel res <> ""
    /\ ~ (pra_estimatedReviewTime res == 0)%Q
    /\ pra_relatedJiraTickets res = [].
Proof.
  intros W run.
  destruct run as [[res | e] st'] eqn:Hrun.
  - destruct (proj1 (decision_defaults W init) pr_o_r_1 res st' Hrun)
      as (H1 & H2 & H3).
    exists res. split; [reflexivity |]. split; [exact H1 |].
    split; [exact H2 | apply H3; reflexivity].
  - exfalso. vm_compute in Hrun. discriminate Hrun.
Defined.

(** *** The two analyses *)

(** X9: the analyses write next to nothing to the platforms.  [analyzePR]
    issues no writing adapter call at all (no release, no PR status, no
    comment, no notification), whatever happens; [smartTriage] issues none
    either, or exactly one: the comment on the triaged issue. *)
Theorem analyses_side_effects W st :
  (forall params,
     List.filter is_write_call (events_since st (snd (analyzePR W params st)))
     = [])
  /\ (forall params,
        let evs := events_since st (snd (smartTriage W params st)) in
        List.filter is_write_call evs = []
        \/ exists c,
             List.filter is_write_call evs
             = [AddCommentToIssue (issue_key params) c]).
Proof.
  split.
  - intros params. unfold analyzePR, getTeamMembers. exec.
    destruct (getPRDetails W _ _ _ _); exec; [| since_goal; reflexivity].
    destruct (getRepositoryStats W _ _ _); exec;
      destruct (analyzePullRequest W _ _); exec; since_goal; reflexivity.
  - intros params. cbv zeta.
    unfold smartTriage, extractGitHubIssueContext, findSimilarIssues,
      getSuggestedSprint.
    exec.
    destruct (getIssue W _ _); exec; [| left; since_goal; reflexivity].
    destruct (Js.truthy_opt (github_issue_url params)); exec.
    + destruct (negb (Js.truthy_opt (Js.from_end _ 1))); exec;
        [| destruct (negb _ || negb _); exec;
           [| destruct (getIssueDetails W _ _ _ _); exec ] ].
      all: destruct (searchIssues W _ _ _); exec.
      all: destruct (triageIssue W _ _); exec;
        [| left; since_goal; reflexivity].
      all: destruct (getIssue W _ _); exec.
      all: destruct (addCommentToIssue W _ _ _); exec.
      all: right; since_goal; eexists; reflexivity.
    + destruct (searchIssues W _ _ _); exec.
      all: destruct (triageIssue W _ _); exec;
        [| left; since_goal; reflexivity].
      all: destruct (getIssue W _ _); exec.
      all: destruct (addCommentToIssue W _ _ _); exec.
      all: right; since_goal; eexists; reflexivity.
Qed.

(** X10: the roster of [analyzePR] is best effort: once the PR details
    are fetched, the LLM is asked about the pull request in any case, with
    the contributors of the repository as team members, or with an empty
    team when the repository statistics cannot be read. *)
Theorem roster_failure_degrades W params st d :
  let wid := pr_workflow_id params in
  let h1 :=
    trace st
    ++ [StoreSet wid (phase_record wid pr "analyzing" (now W (dates st)) ∅)] in
  let h2 :=
    h1 ++ [GetPRDetails (owner params) (repo params) (pull_number params)] in
  getPRDetails W h1 (owner params) (repo params) (pull_number params)
  = Resolved d ->
  let roster :=
    match getRepositoryStats W h2 (owner params) (repo params) with
    | Resolved stats => contributors stats
    | Rejected _ => []
    end in
  AnalyzePullRequest
    {| ctx_title := pr_title d; ctx_description := pr_body d;
       ctx_files := pr_files d; ctx_commits := pr_commits d;
       ctx_reviews := pr_reviews d; ctx_teamMembers := roster |}
  ∈ events_since st (snd (analyzePR W params st)).
Proof.
  intros wid h1 h2 Hd roster. subst wid h1 h2 roster.
  unfold analyzePR, getTeamMembers. exec. rewrite Hd. exec.
  destruct (getRepositoryStats W _ _ _); exec;
    destruct (analyzePullRequest W _ _); exec; since_goal.
  all: apply (list_elem_of_lookup_2 _ 3); reflexivity.
Qed.

Lemma roster_failure_degrades_witness :
  let W := mock_world false false (Some releases_channel) 85 in
  AnalyzePullRequest
    {| ctx_title := "Test PR";
       ctx_description := "Implements PROJ-456 and PROJ-456";
       ctx_files := []; ctx_commits := []; ctx_reviews := [];
       ctx_teamMembers := ["dev1"; "dev2"] |}
  ∈ events_since init (snd (analyzePR W pr_o_r_1 init)).
Proof.
  intros W.
  exact (roster_failure_degrades W pr_o_r_1 init mock_pr eq_refl).
Defined.

(** X11: an error of [smartTriage] is one of three, passed on unchanged:
    that of the fetch of the issue, that of the LLM triage, or that of the
    comment on the triaged issue.  The best-effort reads (GitHub issue
    context, similar issues, suggested sprint) never make it fail. *)
Theorem smartTriage_error_provenance W params st e st' :
  smartTriage W params st = (Rejected e, st') ->
  let wid := triage_workflow_id params in
  getIssue W
    (trace st
     ++ [StoreSet wid (phase_record wid issue "triaging" (now W (dates st)) ∅)])
    (issue_key params) = Rejected e
  \/ (exists h ctx, triageIssue W h ctx = Rejected e)
  \/ (exists h c, addCommentToIssue W h (issue_key params) c = Rejected e).
Proof.
  intros Hrun.
  unfold smartTriage, extractGitHubIssueContext, findSimilarIssues,
    getSuggestedSprint in Hrun.
  exec.
  cbv zeta.
  on_call Hrun getIssue; [| injection Hrun as <- _; left; reflexivity].
  destruct (Js.truthy_opt (github_issue_url params)); exec.
  - destruct (negb (Js.truthy_opt (Js.from_end _ 1))); exec;
      [| destruct (negb _ || negb _); exec; [| on_call Hrun getIssueDetails ] ].
    all: on_call Hrun searchIssues.
    all: on_call Hrun triageIssue;
      [| injection Hrun as <- _; right; left; eauto].
    all: on_call Hrun getIssue.
    all: on_call Hrun addCommentToIssue;
      [discriminate Hrun | injection Hrun as <- _; right; right; eauto].
  - on_call Hrun searchIssues.
    all: on_call Hrun triageIssue;
      [| injection Hrun as <- _; right; left; eauto].
    all: on_call Hrun getIssue.
    all: on_call Hrun addCommentToIssue;
      [discriminate Hrun | injection Hrun as <- _; right; right; eauto].
Qed.

Lemma smartTriage_error_provenance_witness :
  let W := mock_world false true None 85 in
  fst (smartTriage W triage_PROJ_789 init) = Rejected (unavailable SvcJira)
  /\ exists h c,
       addCommentToIssue W h (issue_key triage_PROJ_789) c
       = Rejected (unavailable SvcJira).
Proof.
  intros W.
  destruct (smartTriage W triage_PROJ_789 init) as [[res | e] st'] eqn:Hrun.
  - exfalso. vm_compute in Hrun. discriminate Hrun.
  - assert (He : e = unavailable SvcJira).
    { subst W. vm_compute in Hrun. injection Hrun as <- _. reflexivity. }
    subst e. split; [reflexivity |].
    destruct (smartTriage_error_provenance W triage_PROJ_789 init _ st' Hrun)
      as [H | [(h & ctx & H) | H]].
    + exfalso. discriminate H.
    + exfalso. discriminate H.
    + exact H.
Defined.
